(** * mcp-chrome bridge: constants, host wrapper and request correlation

    A shallow embedding of
      - [app/native-server/src/constant/index.ts] (module [Constant]),
      - the [configure-host.sh] helper (module [ConfigureHost]),
      - the [run_host] wrapper script (module [RunHost]),
    followed by a model of the Bridge Gateway's request correlator
    (module [Bridge]) and the properties established for them. *)

From Stdlib Require Import ZArith NArith Ascii String List Lia.
From stdpp Require Import base option list strings pretty gmap fin_maps.

Local Open Scope string_scope.
Local Open Scope Z_scope.

(** ** JavaScript object literals and the operators used on them *)

Module JS.

(** An object literal [{ K1: v1, K2: v2, ... } as const]: its own
    properties in source order. *)
Definition obj (A : Type) : Type := list (string * A).

(** Property read [o.K]; [None] stands for [undefined]. *)
Fixpoint get {A : Type} (o : obj A) (k : string) : option A :=
  match o with
  | [] => None
  | (k', v) :: o' => if decide (k' = k) then Some v else get o' k
  end.

Definition keys {A : Type} (o : obj A) : list string := o.*1.
Definition values {A : Type} (o : obj A) : list A := o.*2.

(** [o.K] for a key the type checker knows to be present. *)
Definition field {A : Type} `{Inhabited A} (o : obj A) (k : string) : A :=
  default inhabitant (get o k).

(** Truthiness of a value that is a string or [undefined]: only a
    defined, non-empty string is truthy. *)
Definition truthy (v : option string) : bool :=
  match v with
  | Some (String _ _) => true
  | Some EmptyString | None => false
  end.

(** [a || b] with [a : string | undefined] and [b : string]. *)
Definition or (a : option string) (b : string) : string :=
  match a with
  | Some s => if truthy a then s else b
  | None => b
  end.

End JS.

(** ** app/native-server/src/constant/index.ts *)

Module Constant.

(** [export enum NATIVE_MESSAGE_TYPE]: member name and string value. *)
Definition NATIVE_MESSAGE_TYPE : JS.obj string :=
  [ ("START", "start");
    ("STARTED", "started");
    ("STOP", "stop");
    ("STOPPED", "stopped");
    ("PING", "ping");
    ("PONG", "pong");
    ("ERROR", "error") ].

Definition NATIVE_SERVER_PORT : Z := 56889.

(** Timeout constants (in milliseconds). *)
Definition TIMEOUTS : JS.obj Z :=
  [ ("DEFAULT_REQUEST_TIMEOUT", 15000);
    ("EXTENSION_REQUEST_TIMEOUT", 20000);
    ("PROCESS_DATA_TIMEOUT", 20000) ].

(** [process.env]: the environment the module is loaded in. *)
Definition process_env : Type := gmap string string.

(** [SERVER_CONFIG.HOST = process.env.MCP_CHROME_HOST || '0.0.0.0'] *)
Definition SERVER_CONFIG_HOST (env : process_env) : string :=
  JS.or (env !! "MCP_CHROME_HOST") "0.0.0.0".
Definition SERVER_CONFIG_CORS_ORIGIN : bool := true.
Definition SERVER_CONFIG_LOGGER_ENABLED : bool := false.

(** HTTP status codes. *)
Definition HTTP_STATUS : JS.obj Z :=
  [ ("OK", 200);
    ("NO_CONTENT", 204);
    ("BAD_REQUEST", 400);
    ("INTERNAL_SERVER_ERROR", 500);
    ("GATEWAY_TIMEOUT", 504) ].

(** Error messages. *)
Definition ERROR_MESSAGES : JS.obj string :=
  [ ("NATIVE_HOST_NOT_AVAILABLE", "Native host connection not established.");
    ("SERVER_NOT_RUNNING", "Server is not actively running.");
    ("REQUEST_TIMEOUT", "Request to extension timed out.");
    ("INVALID_MCP_REQUEST", "Invalid MCP request or session.");
    ("INVALID_SESSION_ID", "Invalid or missing MCP session ID.");
    ("INTERNAL_SERVER_ERROR", "Internal Server Error");
    ("MCP_SESSION_DELETION_ERROR",
       "Internal server error during MCP session deletion.");
    ("MCP_REQUEST_PROCESSING_ERROR",
       "Internal server error during MCP request processing.");
    ("INVALID_SSE_SESSION", "Invalid or missing MCP session ID for SSE.") ].


End Constant.

(** ** scripts/configure-host.sh: the connection hints it prints *)

Module ConfigureHost.

Definition DEFAULT_HOST : string := "0.0.0.0".

(** Colours for output, as the variables hold them: the single-quoted
    [BLUE='\033[0;34m'] and [NC='\033[0m'] keep the backslash and the
    digits; [echo -e] turns them into the escape character. *)
Definition BLUE : string := "\033[0;34m".
Definition NC : string := "\033[0m".

(** [http://$HOST_IP:12306/mcp] *)
Definition connect_url (host_ip : string) : string :=
  "http://" +:+ host_ip +:+ ":12306/mcp".

(** Where [echo -e] stands in its argument: in plain text, right after
    a backslash, inside [\0nnn] (value so far, digits still allowed), or
    inside [\xHH] (value so far, digits still allowed, whether a digit
    was seen). *)
Inductive echo_state : Type :=
| Plain
| Escape
| Octal (value : N) (room : nat)
| Hex (value : N) (room : nat) (seen : bool).

Definition byte (value : N) : ascii := ascii_of_N (value mod 256).

Definition octal_digit (c : ascii) : option N :=
  let n := N_of_ascii c in
  if (48 <=? n)%N && (n <=? 55)%N then Some (n - 48)%N else None.

Definition hex_digit (c : ascii) : option N :=
  let n := N_of_ascii c in
  if (48 <=? n)%N && (n <=? 57)%N then Some (n - 48)%N
  else if (65 <=? n)%N && (n <=? 70)%N then Some (n - 55)%N
  else if (97 <=? n)%N && (n <=? 102)%N then Some (n - 87)%N
  else None.

Definition emit (c : ascii) (rest : option string) : option string :=
  String c <$> rest.

(** What an unfinished escape leaves when the argument or the escape
    ends. *)
Definition flush (st : echo_state) (rest : option string) : option string :=
  match st with
  | Plain => rest
  | Escape => emit "\"%char rest
  | Octal value _ => emit (byte value) rest
  | Hex value _ true => emit (byte value) rest
  | Hex _ _ false => emit "\"%char (emit "x"%char rest)
  end.

(** [echo -e "$arg"]: the bytes written, with the escapes the builtin
    knows expanded ([\a \b \e \E \f \n \r \t \v \], [\0] with up to
    three octal digits, [\x] with one or two hexadecimal digits), [\c]
    ending the output at once, any other backslash kept, and a newline
    at the end.  [None] for [\u] and [\U], whose bytes depend on the
    locale. *)
Fixpoint echo_e_from (st : echo_state) (arg : string) : option string :=
  match arg with
  | EmptyString => flush st (Some (String "010"%char ""))
  | String c rest =>
      let plain :=
        if bool_decide (c = "\"%char) then echo_e_from Escape rest
        else emit c (echo_e_from Plain rest) in
      match st with
      | Plain => plain
      | Escape =>
          if bool_decide (c = "a"%char) then
            emit "007"%char (echo_e_from Plain rest)
          else if bool_decide (c = "b"%char) then
            emit "008"%char (echo_e_from Plain rest)
          else if bool_decide (c = "c"%char) then Some ""
          else if bool_decide (c ∈ ["e"%char; "E"%char]) then
            emit "027"%char (echo_e_from Plain rest)
          else if bool_decide (c = "f"%char) then
            emit "012"%char (echo_e_from Plain rest)
          else if bool_decide (c = "n"%char) then
            emit "010"%char (echo_e_from Plain rest)
          else if bool_decide (c = "r"%char) then
            emit "013"%char (echo_e_from Plain rest)
          else if bool_decide (c = "t"%char) then
            emit "009"%char (echo_e_from Plain rest)
          else if bool_decide (c = "v"%char) then
            emit "011"%char (echo_e_from Plain rest)
          else if bool_decide (c = "\"%char) then
            emit "\"%char (echo_e_from Plain rest)
          else if bool_decide (c = "0"%char) then
            echo_e_from (Octal 0 3) rest
          else if bool_decide (c = "x"%char) then
            echo_e_from (Hex 0 2 false) rest
          else if bool_decide (c ∈ ["u"%char; "U"%char]) then None
          else emit "\"%char (emit c (echo_e_from Plain rest))
      | Octal value room =>
          match room, octal_digit c with
          | S room', Some d => echo_e_from (Octal (value * 8 + d) room') rest
          | _, _ => flush st plain
          end
      | Hex value room seen =>
          match room, hex_digit c with
          | S room', Some d =>
              echo_e_from (Hex (value * 16 + d) room' true) rest
          | _, _ => flush st plain
          end
      end
  end.

Definition echo_e (arg : string) : option string := echo_e_from Plain arg.

(** Mode [tailscale]:
    [echo -e "${BLUE}  Your MCP clients should connect to: http://$TAILSCALE_IP:12306/mcp${NC}"] *)
Definition tailscale_hint (TAILSCALE_IP : string) : option string :=
  echo_e (BLUE +:+ "  Your MCP clients should connect to: "
               +:+ connect_url TAILSCALE_IP +:+ NC).

(** Mode [set]:
    [echo -e "${BLUE}  Your MCP clients should connect to: http://$HOST_IP:12306/mcp${NC}"] *)
Definition set_hint (HOST_IP : string) : option string :=
  echo_e (BLUE +:+ "  Your MCP clients should connect to: "
               +:+ connect_url HOST_IP +:+ NC).

(** How a URL names host [h] and port [p]. *)
Definition url_of (h : string) (p : Z) : string :=
  "http://" +:+ h +:+ ":" +:+ pretty p +:+ "/mcp".

(** The port written in both hints. *)
Definition printed_port : Z := 12306.

(** The line a hint comes out as when it names host [h] and port [p]:
    the colour, the text, the URL, the colour reset and a newline. *)
Definition hint_line (h : string) (p : Z) : string :=
  String "027"%char "[0;34m" +:+ "  Your MCP clients should connect to: "
    +:+ url_of h p +:+ String "027"%char "[0m" +:+ String "010"%char "".

End ConfigureHost.

(** ** The run_host wrapper script: resolution of MCP_CHROME_HOST *)

Module RunHost.

(** What the script can find at a configuration path.  [[ -f p ]]
    holds for [Unreadable] and [Regular]; [cat p 2>/dev/null] prints
    the content of a [Regular] file and nothing otherwise. *)
Inductive file_state : Type :=
| NoFile
| Unreadable
| Regular (content : string).

Definition is_file (f : file_state) : bool :=
  match f with
  | NoFile => false
  | Unreadable | Regular _ => true
  end.

Definition cat_quiet (f : file_state) : string :=
  match f with
  | Regular content => content
  | NoFile | Unreadable => ""
  end.

(** What the wrapper sees when it starts: the inherited variable (if
    any), [${SCRIPT_DIR}/.mcp-chrome-host] and [${HOME}/.mcp-chrome/host]. *)
Record world : Type := World {
  env_MCP_CHROME_HOST : option string;
  CONFIG_FILE : file_state;
  USER_CONFIG_FILE : file_state
}.

(** [${VAR:-word}]: [word] when VAR is unset or null. *)
Definition param_default (var : option string) (word : string) : string :=
  match var with
  | Some (String c s) => String c s
  | Some EmptyString | None => word
  end.

(** [[ -z "$s" ]] *)
Definition test_z (s : string) : bool :=
  match s with
  | EmptyString => true
  | String _ _ => false
  end.

(** [tr -d SET]: delete every byte that is in SET. *)
Fixpoint tr_d (set : list ascii) (s : string) : string :=
  match s with
  | EmptyString => EmptyString
  | String c s' =>
      if bool_decide (c ∈ set) then tr_d set s' else String c (tr_d set s')
  end.

(** [head -c n]: the first [n] bytes. *)
Fixpoint head_c (n : nat) (s : string) : string :=
  match n, s with
  | S n', String c s' => String c (head_c n' s')
  | _, _ => EmptyString
  end.

Definition NUL : ascii := "000"%char.
Definition LF : ascii := "010"%char.
Definition CR : ascii := "013"%char.
Definition SP : ascii := " "%char.

Fixpoint strip_trailing_newlines (s : string) : string :=
  match s with
  | EmptyString => EmptyString
  | String c s' =>
      match strip_trailing_newlines s' with
      | EmptyString => if bool_decide (c = LF) then EmptyString
                       else String c EmptyString
      | r => String c r
      end
  end.

(** [$(command)]: the shell keeps the command's output without its
    NUL list_ascii_of_string (a variable cannot hold them) and without trailing
    newlines. *)
Definition command_subst (output : string) : string :=
  strip_trailing_newlines (tr_d [NUL] output).

(** [$(cat "$f" 2>/dev/null | tr -d '\n\r ' | head -c 50)] *)
Definition read_host (f : file_state) : string :=
  command_subst (head_c 50 (tr_d [LF; CR; SP] (cat_quiet f))).

(** Lines 14-26: the shell variable MCP_CHROME_HOST before the export. *)
Definition load_host (w : world) : string :=
  let MCP_CHROME_HOST := param_default (env_MCP_CHROME_HOST w) "" in
  if test_z MCP_CHROME_HOST then
    if is_file (CONFIG_FILE w) then read_host (CONFIG_FILE w)
    else if is_file (USER_CONFIG_FILE w) then read_host (USER_CONFIG_FILE w)
    else MCP_CHROME_HOST
  else MCP_CHROME_HOST.

(** Line 29: [export MCP_CHROME_HOST="${MCP_CHROME_HOST:-0.0.0.0}"],
    the value the Node.js process inherits. *)
Definition exported_host (w : world) : string :=
  param_default (Some (load_host w)) "0.0.0.0".

(** The sanitisation in words: newline, carriage-return and space
    characters removed ([stripped]), then at most 50 bytes kept
    ([sanitized]); to be compared with [read_host] and
    [exported_host]. *)
Definition stripped (content : string) : string :=
  tr_d [LF; CR; SP] content.
Definition sanitized (content : string) : string :=
  head_c 50 (stripped content).

(** A file as [echo " 100.64.0.1" > host] on a CRLF system leaves it. *)
Definition sample_host_file : string :=
  String SP ("100.64.0.1" +:+ String CR (String LF "")).

End RunHost.

(** ** The Bridge Gateway: connection state, request correlator, replies *)

Module Bridge.

Local Open Scope N_scope.

(** Modelled from the spec: the Connection of section 3 (the
    Connection Manager's code is not among the source files), with
    the four states of its lifecycle. *)
Inductive conn_state : Type :=
| disconnected
| connecting
| connected
| closing.

Definition Payload : Type := string.

(** Modelled from the spec: how a forwarded command ends for its
    caller (section 4.3: resolved with the matching response, failed
    with TimeoutError, failed with ConnectionLostError); the
    correlator's code is not among the source files. *)
Inductive outcome : Type :=
| Resolved (response : Payload)
| TimeoutError
| ConnectionLostError.

(** Modelled from the spec: the PendingRequest of section 3, with its
    correlation identifier and absolute deadline in milliseconds; the
    resolve/reject continuation is the caller waiting on [pr_id]. *)
Record PendingRequest : Type := Pending {
  pr_id : N;
  pr_deadline : N
}.

(** Modelled from the spec: the process-wide state of the bridge: the
    single Connection, the clock, and the Request Correlator with its
    monotonic identifier counter and its pending-request table keyed
    by identifier (sections 3 and 4.3). *)
Record state : Type := State {
  conn : conn_state;
  now : N;
  next_id : N;
  pending : gmap N PendingRequest
}.

(** Modelled from the spec: the bridge at process start, before the
    Connection Manager has connected to the extension. *)
Definition init : state :=
  {| conn := disconnected; now := 0; next_id := 0; pending := ∅ |}.

Definition set_conn (c : conn_state) (s : state) : state :=
  {| conn := c; now := now s; next_id := next_id s; pending := pending s |}.

(** Modelled from the spec: what [send] hands back at once: the
    identifier under which the caller now waits, or the immediate
    refusal of section 3, invariant 4. *)
Inductive send_result : Type :=
| Accepted (i : N)
| Refused.

(** Modelled from the spec: [send(payload, timeoutMs)] of section 4.3.
    A call under a Connection that is not [connected] fails at once
    (invariant 4 of section 3); otherwise the next identifier is
    taken and a PendingRequest with deadline [now + timeoutMs] is
    recorded.  The payload goes out on the Framed Channel, which is
    not part of this state. *)
Definition send (s : state) (timeoutMs : N) : state * send_result :=
  match conn s with
  | connected =>
      let i := next_id s in
      ({| conn := conn s; now := now s; next_id := N.succ i;
          pending := <[i := Pending i (now s + timeoutMs)]> (pending s) |},
       Accepted i)
  | _ => (s, Refused)
  end.

(** Modelled from the spec: what the single-threaded event loop of
    section 5 reacts to: a client command, a response frame from the
    extension, the passing of time, [connect()] and its completion,
    [disconnect()], and the closure of the channel. *)
Inductive event : Type :=
| Send (payload : Payload) (timeoutMs : N)
| Response (i : N) (payload : Payload)
| Elapse (dt : N)
| Connect
| Established
| Stop
| ConnectionLost.

(** What one step tells the waiting callers, by identifier. *)
Abbreviation notices := (gmap N outcome).

(** Modelled from the spec: one turn of the event loop (sections 4.3,
    4.4 and 5).  A response resolves the PendingRequest with its
    identifier and is dropped when there is none; when time passes,
    the requests whose deadline has been reached fail with
    TimeoutError; [connect()] is a no-op unless disconnected; on
    loss of the Connection every PendingRequest fails with
    ConnectionLostError in the same turn. *)
Definition step (s : state) (e : event) : state * notices :=
  match e with
  | Send _ timeoutMs => ((send s timeoutMs).1, ∅)
  | Response i r =>
      match pending s !! i with
      | Some _ =>
          ({| conn := conn s; now := now s; next_id := next_id s;
              pending := delete i (pending s) |},
           {[ i := Resolved r ]})
      | None => (s, ∅)
      end
  | Elapse dt =>
      let t := now s + dt in
      ({| conn := conn s; now := t; next_id := next_id s;
          pending := filter (λ kp, t < pr_deadline kp.2) (pending s) |},
       (λ _, TimeoutError) <$> filter (λ kp, pr_deadline kp.2 ≤ t) (pending s))
  | Connect =>
      (match conn s with
       | disconnected => set_conn connecting s
       | _ => s
       end, ∅)
  | Established =>
      (match conn s with
       | connecting => set_conn connected s
       | _ => s
       end, ∅)
  | Stop =>
      (match conn s with
       | connected => set_conn closing s
       | _ => s
       end, ∅)
  | ConnectionLost =>
      ({| conn := disconnected; now := now s; next_id := next_id s;
          pending := ∅ |},
       (λ _, ConnectionLostError) <$> pending s)
  end.

Fixpoint run (s : state) (es : list event) : state * list notices :=
  match es with
  | [] => (s, [])
  | e :: es' =>
      let '(s1, n) := step s e in
      let '(s2, ns) := run s1 es' in
      (s2, n :: ns)
  end.

Inductive reachable : state → Prop :=
| reachable_init : reachable init
| reachable_step s e : reachable s → reachable (step s e).1.

(** The PendingRequests outstanding in a state. *)
Definition outstanding (s : state) : list PendingRequest :=
  (map_to_list (pending s)).*2.

(** Everything caller [i] was told along a run. *)
Definition delivered (i : N) (ns : list notices) : list outcome :=
  omap (λ n : notices, n !! i) ns.

(** Milliseconds that pass during a list of events. *)
Fixpoint elapsed (es : list event) : N :=
  match es with
  | [] => 0
  | Elapse dt :: es' => dt + elapsed es'
  | _ :: es' => elapsed es'
  end.

(** The extension does not answer request [i] and the Connection is
    neither stopped nor lost. *)
Definition silent_for (i : N) (e : event) : bool :=
  match e with
  | Response j _ => negb (N.eqb j i)
  | Stop | ConnectionLost => false
  | Send _ _ | Elapse _ | Connect | Established => true
  end.

(** Modelled from the spec: an HTTP response body: the resolved payload
    or one of the fixed messages. *)
Inductive body : Type :=
| Result (payload : Payload)
| ErrorMessage (message : string).

(** Modelled from the spec: the Gateway's translation of section 4.6:
    200 with the resolved payload; 504 with the fixed timeout message
    on TimeoutError; 500 with the fixed native-host-not-available
    message on ConnectionLostError.  Status codes and messages are
    read from the constants module. *)
Definition respond (o : outcome) : Z * body :=
  match o with
  | Resolved r => (JS.field Constant.HTTP_STATUS "OK", Result r)
  | TimeoutError =>
      (JS.field Constant.HTTP_STATUS "GATEWAY_TIMEOUT",
       ErrorMessage (JS.field Constant.ERROR_MESSAGES "REQUEST_TIMEOUT"))
  | ConnectionLostError =>
      (JS.field Constant.HTTP_STATUS "INTERNAL_SERVER_ERROR",
       ErrorMessage
         (JS.field Constant.ERROR_MESSAGES "NATIVE_HOST_NOT_AVAILABLE"))
  end.

(** The timeout classes a caller picks from, in milliseconds. *)
Definition default_timeout : N :=
  Z.to_N (JS.field Constant.TIMEOUTS "DEFAULT_REQUEST_TIMEOUT").
Definition extension_timeout : N :=
  Z.to_N (JS.field Constant.TIMEOUTS "EXTENSION_REQUEST_TIMEOUT").

(** The invariant of the correlator: every entry sits under its own
    identifier, identifiers in use are below the counter, and nothing
    is pending unless the Connection is connected or closing. *)
Definition inv (s : state) : Prop :=
  (∀ k p, pending s !! k = Some p → pr_id p = k ∧ k < next_id s) ∧
  (conn s = disconnected ∨ conn s = connecting → pending s = ∅).

(** The HTTP replies caller [i] received along a run. *)
Definition http_replies (i : N) (ns : list notices) : list (Z * body) :=
  respond <$> delivered i ns.










(** A bridge whose Connection has just been established, and one with
    two requests in flight, one of each timeout class. *)
Definition established : state := (run init [Connect; Established]).1.
Definition two_in_flight : state :=
  (run established
       [Send "tabs" default_timeout; Send "screenshot" extension_timeout]).1.

End Bridge.

(** ** The run_host wrapper script: discovery of the Node.js executable *)

Module NodeDiscovery.

(** What lines 54-143 of the wrapper consult: the two directories, the
    file [${SCRIPT_DIR}/node_path.txt], the test [[ -x p ]], whether
    [$HOME/.nvm] is a directory, what [readlink] prints for
    [alias/default] when that is a symbolic link, what
    [ls -d ${NVM_DIR}/versions/node/v* | sort -V | tail -n 1] leaves in
    the variable, what [command -v node] prints when it succeeds, and
    the words [$PATH] splits into under [IFS=:]. *)
Record world : Type := World {
  SCRIPT_DIR : string;
  HOME : string;
  NODE_PATH_FILE : RunHost.file_state;
  executable : string → bool;
  nvm_is_dir : bool;
  nvm_default_link : option string;
  nvm_latest : string;
  command_v_node : option string;
  PATH_words : list string
}.

(** [$(cat "${NODE_PATH_FILE}" 2>/dev/null | tr -d '\n\r')] *)
Definition installed_node (f : RunHost.file_state) : string :=
  RunHost.command_subst
    (RunHost.tr_d [RunHost.LF; RunHost.CR] (RunHost.cat_quiet f)).

Definition COMMON_NODE_PATHS : list string :=
  ["/opt/homebrew/bin/node"; "/usr/local/bin/node"].

(** A [for] loop that takes the first candidate passing [[ -x ]] and
    breaks; the variable keeps its value when there is none. *)
Fixpoint first_executable (x : string → bool) (candidates : list string)
    (NODE_EXEC : string) : string :=
  match candidates with
  | [] => NODE_EXEC
  | c :: rest => if x c then c else first_executable x rest NODE_EXEC
  end.

(** Priority 1: installation-time node path. *)
Definition priority_1 (w : world) : string :=
  if RunHost.is_file (NODE_PATH_FILE w) then
    let EXPECTED_NODE := installed_node (NODE_PATH_FILE w) in
    if negb (RunHost.test_z EXPECTED_NODE) && executable w EXPECTED_NODE
    then EXPECTED_NODE else ""
  else "".

(** Priority 1.5: fallback to the relative path. *)
Definition priority_1_5 (w : world) (NODE_EXEC : string) : string :=
  if RunHost.test_z NODE_EXEC then
    let EXPECTED_NODE := SCRIPT_DIR w +:+ "/../../../bin/node" in
    if executable w EXPECTED_NODE then EXPECTED_NODE else NODE_EXEC
  else NODE_EXEC.

(** Priority 2: NVM, the default version first, then the latest. *)
Definition priority_2 (w : world) (NODE_EXEC : string) : string :=
  if RunHost.test_z NODE_EXEC then
    let NVM_DIR := HOME w +:+ "/.nvm" in
    if nvm_is_dir w then
      let NODE_EXEC :=
        match nvm_default_link w with
        | Some NVM_DEFAULT_VERSION =>
            let NVM_DEFAULT_NODE :=
              NVM_DIR +:+ "/versions/node/" +:+ NVM_DEFAULT_VERSION
                      +:+ "/bin/node" in
            if executable w NVM_DEFAULT_NODE then NVM_DEFAULT_NODE
            else NODE_EXEC
        | None => NODE_EXEC
        end in
      if RunHost.test_z NODE_EXEC then
        let LATEST_NVM_VERSION_PATH := nvm_latest w in
        if negb (RunHost.test_z LATEST_NVM_VERSION_PATH)
           && executable w (LATEST_NVM_VERSION_PATH +:+ "/bin/node")
        then LATEST_NVM_VERSION_PATH +:+ "/bin/node"
        else NODE_EXEC
      else NODE_EXEC
    else NODE_EXEC
  else NODE_EXEC.

(** Priority 3: common paths. *)
Definition priority_3 (w : world) (NODE_EXEC : string) : string :=
  if RunHost.test_z NODE_EXEC
  then first_executable (executable w) COMMON_NODE_PATHS NODE_EXEC
  else NODE_EXEC.

(** Priority 4: [command -v node]. *)
Definition priority_4 (w : world) (NODE_EXEC : string) : string :=
  if RunHost.test_z NODE_EXEC then
    match command_v_node w with
    | Some out => out
    | None => NODE_EXEC
    end
  else NODE_EXEC.

(** Priority 5: search of PATH. *)
Definition priority_5 (w : world) (NODE_EXEC : string) : string :=
  if RunHost.test_z NODE_EXEC
  then first_executable (executable w)
         ((λ path_in_env, path_in_env +:+ "/node") <$> PATH_words w)
         NODE_EXEC
  else NODE_EXEC.

(** The value of NODE_EXEC when the search is over. *)
Definition NODE_EXEC (w : world) : string :=
  priority_5 w (priority_4 w (priority_3 w (priority_2 w
    (priority_1_5 w (priority_1 w))))).

(** Execution: [exit 1] ([None]) when NODE_EXEC is empty, otherwise
    the program handed to [exec]. *)
Definition find_node (w : world) : option string :=
  if RunHost.test_z (NODE_EXEC w) then None else Some (NODE_EXEC w).

End NodeDiscovery.

(** ** scripts/configure-host.sh: validation, arguments and modes *)

Module HostScript.

Definition is_digit (c : ascii) : bool :=
  (48 <=? N_of_ascii c)%N && (N_of_ascii c <=? 57)%N.

(** [[0-9]{1,3}] followed by [k]: one, two or three digits, whichever
    lets the rest match. *)
Definition digits_1_3 (k : string → bool) (s : string) : bool :=
  match s with
  | String d1 s1 =>
      is_digit d1 &&
      (k s1 ||
       match s1 with
       | String d2 s2 =>
           is_digit d2 &&
           (k s2 ||
            match s2 with
            | String d3 s3 => is_digit d3 && k s3
            | EmptyString => false
            end)
       | EmptyString => false
       end)
  | EmptyString => false
  end.

(** [\.] followed by [k]. *)
Definition dot (k : string → bool) (s : string) : bool :=
  match s with
  | String c s' => bool_decide (c = "."%char) && k s'
  | EmptyString => false
  end.

(** [$] *)
Definition end_of_string (s : string) : bool :=
  match s with
  | EmptyString => true
  | String _ _ => false
  end.

(** [[[ "$host_ip" =~ ^([0-9]{1,3}\.){3}[0-9]{1,3}$ ]]] *)
Definition ip_pattern (host_ip : string) : bool :=
  digits_1_3 (dot (digits_1_3 (dot (digits_1_3 (dot
    (digits_1_3 end_of_string)))))) host_ip.

(** [[[ "$confirm" =~ ^[Yy]$ ]]] *)
Definition yes_pattern (confirm : string) : bool :=
  match confirm with
  | String c EmptyString =>
      bool_decide (c = "Y"%char) || bool_decide (c = "y"%char)
  | _ => false
  end.

(** The condition of the warning in [set_config]. *)
Definition needs_confirmation (host_ip : string) : bool :=
  negb (ip_pattern host_ip)
  && negb (String.eqb host_ip "0.0.0.0")
  && negb (String.eqb host_ip "127.0.0.1").

Fixpoint all_in (set : list ascii) (s : string) : bool :=
  match s with
  | EmptyString => true
  | String c s' => bool_decide (c ∈ set) && all_in set s'
  end.

Fixpoint has (c : ascii) (s : string) : bool :=
  match s with
  | EmptyString => false
  | String c' s' => bool_decide (c' = c) || has c s'
  end.

(** The builtin [echo] takes a word made of [-] and one or more of the
    letters n, e, E as options rather than as text. *)
Definition echo_options (arg : string) : option string :=
  match arg with
  | String "-"%char (String c rest) =>
      if all_in ["n"%char; "e"%char; "E"%char] (String c rest)
      then Some (String c rest) else None
  | _ => None
  end.

(** [echo "$arg"]: the bytes written. *)
Definition bash_echo (arg : string) : string :=
  match echo_options arg with
  | Some letters => if has "n"%char letters then "" else String RunHost.LF ""
  | None => arg +:+ String RunHost.LF ""
  end.

Inductive set_config_result : Type :=
| Saved (content : string)
| Return1.

(** [set_config "$host_ip" "$config_location"]: [Saved c] when the
    function reaches [echo "$host_ip" > "$config_location"], [c] being
    what the file then holds; [Return1] when it returns 1 (or [read]
    fails at end of input, which under [set -e] ends the script with
    status 1 as well).  [confirm] is what [read] stores in the
    variable.  [mkdir -p], the redirection and [chmod] are taken to
    succeed. *)
Definition set_config (host_ip : string) (confirm : option string)
    : set_config_result :=
  if RunHost.test_z host_ip then Return1
  else if needs_confirmation host_ip then
    match confirm with
    | Some reply =>
        if yes_pattern reply then Saved (bash_echo host_ip) else Return1
    | None => Return1
    end
  else Saved (bash_echo host_ip).

Inductive mode : Type :=
| info
| reset
| tailscale
| set.

Record settings : Type := Settings {
  MODE : mode;
  HOST_IP : string;
  USE_USER_CONFIG : bool
}.

(** [MODE="set"], [HOST_IP=""], [USE_USER_CONFIG=true] *)
Definition defaults : settings := Settings set "" true.

Inductive parse_result : Type :=
| Run (o : settings)
| Exit (status : Z).

Definition is_set (m : mode) : bool :=
  match m with
  | set => true
  | info | reset | tailscale => false
  end.

(** The [while [[ $# -gt 0 ]]; do case $1 in ... esac; done] loop. *)
Fixpoint parse_args (o : settings) (args : list string) : parse_result :=
  match args with
  | [] => Run o
  | a :: rest =>
      if bool_decide (a ∈ ["-h"; "--help"]) then Exit 0
      else if bool_decide (a ∈ ["-i"; "--info"]) then
        parse_args (Settings info (HOST_IP o) (USE_USER_CONFIG o)) rest
      else if bool_decide (a ∈ ["-r"; "--reset"]) then
        parse_args (Settings reset (HOST_IP o) (USE_USER_CONFIG o)) rest
      else if bool_decide (a ∈ ["-t"; "--tailscale"]) then
        parse_args (Settings tailscale (HOST_IP o) (USE_USER_CONFIG o)) rest
      else if bool_decide (a ∈ ["-l"; "--local"]) then
        parse_args (Settings set "127.0.0.1" (USE_USER_CONFIG o)) rest
      else if bool_decide (a ∈ ["-g"; "--global"]) then
        parse_args (Settings set "0.0.0.0" (USE_USER_CONFIG o)) rest
      else if bool_decide (a = "--install-dir") then
        parse_args (Settings (MODE o) (HOST_IP o) false) rest
      else if RunHost.test_z (HOST_IP o) && is_set (MODE o) then
        parse_args (Settings (MODE o) a (USE_USER_CONFIG o)) rest
      else Exit 1
  end.

(** What a run of the script meets: [$HOME/.mcp-chrome/host]; whether
    [get_install_dir] printed an existing directory, and
    [.mcp-chrome-host] in it; what [detect_tailscale_ip] printed; and
    what [read] stores in [confirm] ([None] at end of input). *)
Record world : Type := World {
  user_config : RunHost.file_state;
  install_dir_found : bool;
  install_config : RunHost.file_state;
  detected_tailscale_ip : string;
  confirm : option string
}.

(** The exit status and the two configuration files afterwards. *)
Record result : Type := Result {
  status : Z;
  user_config_after : RunHost.file_state;
  install_config_after : RunHost.file_state
}.

Definition unchanged (code : Z) (w : world) : result :=
  Result code (user_config w) (install_config w).

(** [set_config "$host" "$HOME/.mcp-chrome/host"] as the last action
    of a mode, under [set -e]. *)
Definition save_user_config (host : string) (w : world) : result :=
  match set_config host (confirm w) with
  | Saved content => Result 0 (RunHost.Regular content) (install_config w)
  | Return1 => unchanged 1 w
  end.

(** The whole script: argument loop, then [case "$MODE" in ... esac].
    [rm] is taken to succeed. *)
Definition main (args : list string) (w : world) : result :=
  match parse_args defaults args with
  | Exit code => unchanged code w
  | Run o =>
      match MODE o with
      | info => unchanged 0 w
      | reset =>
          if USE_USER_CONFIG o then
            if RunHost.is_file (user_config w)
            then Result 0 RunHost.NoFile (install_config w)
            else unchanged 0 w
          else if install_dir_found w then
            if RunHost.is_file (install_config w)
            then Result 0 (user_config w) RunHost.NoFile
            else unchanged 0 w
          else unchanged 1 w
      | tailscale =>
          if RunHost.test_z (detected_tailscale_ip w) then unchanged 1 w
          else save_user_config (detected_tailscale_ip w) w
      | set =>
          if RunHost.test_z (HOST_IP o) then unchanged 1 w
          else save_user_config (HOST_IP o) w
      end
  end.

(** A text of one to three decimal digits. *)
Definition octet_text (s : string) : Prop :=
  (1 ≤ String.length s ≤ 3)%nat ∧
  all_in (list_ascii_of_string "0123456789") s = true.

(** The words the argument loop treats as options. *)
Definition flags : list string :=
  ["-h"; "--help"; "-i"; "--info"; "-r"; "--reset"; "-t"; "--tailscale";
   "-l"; "--local"; "-g"; "--global"; "--install-dir"].

(** The files a run leaves behind, as the next run finds them. *)
Definition after (r : result) (w : world) : world :=
  World (user_config_after r) (install_dir_found w) (install_config_after r)
        (detected_tailscale_ip w) (confirm w).

(** The wrapper started without MCP_CHROME_HOST and without a file in
    its own directory, after the script left [f] in the user's home. *)
Definition wrapper_after (f : RunHost.file_state) : string :=
  RunHost.exported_host (RunHost.World None RunHost.NoFile f).

End HostScript.

(** ** cli.ts: the update-port and configure-host commands *)

Module Cli.

(** A JavaScript string: its UTF-16 code units. *)
Definition js_string : Type := list N.

(** StrWhiteSpaceChar: WhiteSpace (TAB, VT, FF, ZWNBSP and the space
    separators) and LineTerminator (LF, CR, LS, PS). *)
Definition is_white_space (c : N) : bool :=
  bool_decide (c ∈ [9; 11; 12; 65279; 32; 160; 5760; 8239; 8287; 12288;
                    10; 13; 8232; 8233]%N)
  || ((8192 <=? c)%N && (c <=? 8202)%N).

Definition is_digit (c : N) : bool := (48 <=? c)%N && (c <=? 57)%N.

Fixpoint drop_while {A : Type} (f : A → bool) (l : list A) : list A :=
  match l with
  | [] => []
  | x :: l' => if f x then drop_while f l' else l
  end.

Fixpoint take_while {A : Type} (f : A → bool) (l : list A) : list A :=
  match l with
  | [] => []
  | x :: l' => if f x then x :: take_while f l' else []
  end.

(** The mathematical value of a run of decimal digits. *)
Definition decimal_value (digits : list N) : Z :=
  fold_left (λ acc d, 10 * acc + (Z.of_N d - 48)) digits 0.

(** [parseInt(string, 10)]: leading white space is skipped, one sign
    is read, then the longest run of decimal digits; [None] is NaN.
    The result is kept as an integer: rounding to a Number changes
    neither an integer up to 65535 nor the outcome of comparing a
    larger one with 65535. *)
Definition parseInt10 (input : js_string) : option Z :=
  let trimmed := drop_while is_white_space input in
  let '(sign, body) :=
    match trimmed with
    | c :: rest =>
        if (c =? 45)%N then (-1, rest)
        else if (c =? 43)%N then (1, rest)
        else (1, trimmed)
    | [] => (1, trimmed)
    end in
  match take_while is_digit body with
  | [] => None
  | digits => Some (sign * decimal_value digits)
  end.

(** The head of the [update-port] action: [Some portNumber] when the
    command goes on to rewrite the configuration, [None] when it
    prints the error and leaves with status 1. *)
Definition update_port_number (port : js_string) : option Z :=
  match parseInt10 port with
  | None => None
  | Some portNumber =>
      if (portNumber <? 1) || (portNumber >? 65535) then None
      else Some portNumber
  end.

(** The decimal text of an integer, as code units. *)
Definition decimal_text (n : Z) : js_string :=
  N_of_ascii <$> list_ascii_of_string (pretty n).

(** The decimal text of [n] is a non-empty run of digits whose value
    is [n]. *)
Definition decimal_text_ok (n : Z) : bool :=
  match decimal_text n with
  | [] => false
  | digits => forallb is_digit digits && (decimal_value digits =? n)
  end.

(** [f] holds of the [count] integers from [n] on. *)
Fixpoint all_from (f : Z → bool) (count : nat) (n : Z) : bool :=
  match count with
  | O => true
  | S count' => f n && all_from f count' (n + 1)
  end.

(** The flags of [configure-host]. *)
Record configure_options : Type := Options {
  opt_info : bool;
  opt_reset : bool;
  opt_tailscale : bool;
  opt_local : bool;
  opt_global : bool
}.

(** The arguments built for the script; [None] when neither a flag nor
    a host was given and the command leaves with status 1. *)
Definition configure_host_args (host : option string) (options : configure_options)
    : option (list string) :=
  if opt_info options then Some ["--info"]
  else if opt_reset options then Some ["--reset"]
  else if opt_tailscale options then Some ["--tailscale"]
  else if opt_local options then Some ["--local"]
  else if opt_global options then Some ["--global"]
  else if JS.truthy host then Some [default "" host]
  else None.

(** [writeNodePath]: what [fs.writeFileSync(nodePathFile, nodePath,
    'utf8')] leaves in [node_path.txt], [nodePath] being given by its
    UTF-8 bytes. *)
Definition writeNodePath (execPath : string) : RunHost.file_state :=
  RunHost.Regular execPath.

End Cli.

(** ** Auxiliary notions for the node search *)

Module NodeFacts.

(** A value is acceptable for NODE_EXEC when it is empty (nothing
    found yet), passes [[ -x ]], or is what [command -v node] printed. *)
Definition acceptable (w : NodeDiscovery.world) (p : string) : Prop :=
  p = "" ∨ NodeDiscovery.executable w p = true
  ∨ NodeDiscovery.command_v_node w = Some p.

(** A machine where only the path stored at installation is a node. *)
Definition sample_node_world : NodeDiscovery.world :=
  NodeDiscovery.World
    "/opt/bridge/dist" "/home/u" (Cli.writeNodePath "/usr/bin/node")
    (λ p, String.eqb p "/usr/bin/node") false None "" None [].

End NodeFacts.

(** * Properties *)

(** ** Object literals *)

Section obj_facts.
Context {A : Type}.
Implicit Types (o : JS.obj A) (k : string) (v : A).

Lemma get_Some_elem o k v : JS.get o k = Some v → (k, v) ∈ o.
Proof.
  induction o as [|[k' v'] o IH]; simpl; [done|].
  case_decide as Hk.
  - intros [= <-]. subst k'. apply list_elem_of_here.
  - intros Hg. apply list_elem_of_further, IH, Hg.
Qed.

Lemma elem_get_Some o k v :
  NoDup (JS.keys o) → (k, v) ∈ o → JS.get o k = Some v.
Proof.
  unfold JS.keys.
  induction o as [|[k' v'] o IH]; simpl; intros Hnd Hin.
  - by apply elem_of_nil in Hin.
  - apply NoDup_cons in Hnd as [Hk' Hnd].
    apply elem_of_cons in Hin as [[= -> ->]|Hin].
    + by rewrite decide_True.
    + rewrite decide_False; [by apply IH|].
      intros ->. apply Hk'. apply list_elem_of_fmap.
      by exists (k, v).
Qed.

(** A value is readable from an object exactly when it is listed. *)
Lemma get_values o v :
  NoDup (JS.keys o) → (∃ k, JS.get o k = Some v) ↔ v ∈ JS.values o.
Proof.
  intros Hnd. unfold JS.values. rewrite list_elem_of_fmap. split.
  - intros [k Hk]. exists (k, v). split; [done|]. by apply get_Some_elem.
  - intros [[k v'] [-> Hin]]. exists k. by apply elem_get_Some.
Qed.

(** Distinct keys of an object with distinct values read distinct
    values. *)
Lemma get_inj o k1 k2 v :
  NoDup (JS.values o) →
  JS.get o k1 = Some v → JS.get o k2 = Some v → k1 = k2.
Proof.
  unfold JS.values. intros Hnd H1 H2.
  apply get_Some_elem in H1. apply get_Some_elem in H2.
  revert Hnd H1 H2.
  induction o as [|[k' v'] o IH]; simpl; intros Hnd H1 H2.
  - by apply elem_of_nil in H1.
  - apply NoDup_cons in Hnd as [Hv' Hnd].
    apply elem_of_cons in H1 as [E1|H1];
      apply elem_of_cons in H2 as [E2|H2]; simplify_eq.
    + done.
    + exfalso. apply Hv'. apply list_elem_of_fmap. by exists (k2, v').
    + exfalso. apply Hv'. apply list_elem_of_fmap. by exists (k1, v').
    + by apply IH.
Qed.
End obj_facts.

(** ** The constants *)

Ltac by_evaluation := apply (bool_decide_unpack _); vm_compute; exact I.

Ltac in_list :=
  solve [repeat first [apply list_elem_of_here | apply list_elem_of_further]].


Lemma message_type_keys_nodup : NoDup (JS.keys Constant.NATIVE_MESSAGE_TYPE).
Proof. by_evaluation. Qed.

Lemma http_status_keys_nodup : NoDup (JS.keys Constant.HTTP_STATUS).
Proof. by_evaluation. Qed.



(** C1: the values of the message-type enumeration are exactly the seven
    strings start, started, stop, stopped, ping, pong, error: a string is
    the value of some member if and only if it is one of the seven, the
    enumeration has seven members, and their values are pairwise
    distinct. *)
Theorem message_type_exactly_seven :
  (∀ s : string,
     (∃ member, JS.get Constant.NATIVE_MESSAGE_TYPE member = Some s) ↔
     s ∈ ["start"; "started"; "stop"; "stopped"; "ping"; "pong"; "error"]) ∧
  length Constant.NATIVE_MESSAGE_TYPE = 7%nat ∧
  NoDup (JS.values Constant.NATIVE_MESSAGE_TYPE).
Proof.
  split; [|split].
  - intros s. by rewrite (get_values _ _ message_type_keys_nodup).
  - reflexivity.
  - by_evaluation.
Qed.

(** C3: the status table maps success to 200, no-content to 204, bad
    request (invalid or missing session) to 400, internal error (also
    native host unavailable) to 500 and gateway timeout to 504, and a
    number is a status of the table if and only if it is one of these
    five. *)
Theorem http_status_exactly_five :
  JS.get Constant.HTTP_STATUS "OK" = Some 200 ∧
  JS.get Constant.HTTP_STATUS "NO_CONTENT" = Some 204 ∧
  JS.get Constant.HTTP_STATUS "BAD_REQUEST" = Some 400 ∧
  JS.get Constant.HTTP_STATUS "INTERNAL_SERVER_ERROR" = Some 500 ∧
  JS.get Constant.HTTP_STATUS "GATEWAY_TIMEOUT" = Some 504 ∧
  length Constant.HTTP_STATUS = 5%nat ∧
  (∀ code : Z,
     (∃ name, JS.get Constant.HTTP_STATUS name = Some code) ↔
     code ∈ [200; 204; 400; 500; 504]).
Proof.
  repeat split; try reflexivity.
  - intros H. by apply (get_values _ _ http_status_keys_nodup).
  - intros H. by apply (get_values _ _ http_status_keys_nodup).
Qed.




(** ** Host and port of the network endpoint *)

Lemma connect_url_port (h : string) :
  ConfigureHost.connect_url h =
  ConfigureHost.url_of h ConfigureHost.printed_port.
Proof. reflexivity. Qed.

Lemma string_app_assoc a b c : (a +:+ b) +:+ c = a +:+ (b +:+ c).
Proof.
  induction a as [|x a IH]; [done|].
  change (String x ((a +:+ b) +:+ c) = String x (a +:+ (b +:+ c))).
  by rewrite IH.
Qed.

(** Text without a backslash goes through [echo -e] unchanged. *)
Lemma echo_plain_app a b :
  "\"%char ∉ list_ascii_of_string a →
  ConfigureHost.echo_e_from ConfigureHost.Plain (a +:+ b)
  = (String.append a) <$> ConfigureHost.echo_e_from ConfigureHost.Plain b.
Proof.
  induction a as [|x a IH]; intros Ha.
  - change ("" +:+ b) with b.
    by destruct (ConfigureHost.echo_e_from ConfigureHost.Plain b).
  - simpl in Ha. apply not_elem_of_cons in Ha as [Hx Ha].
    change (String x a +:+ b) with (String x (a +:+ b)).
    cbn [ConfigureHost.echo_e_from].
    rewrite bool_decide_eq_false_2 by congruence.
    rewrite (IH Ha). unfold ConfigureHost.emit.
    by destruct (ConfigureHost.echo_e_from ConfigureHost.Plain b).
Qed.

Lemma fold_emit chars r :
  fold_right ConfigureHost.emit r chars
  = (String.append (string_of_list_ascii chars)) <$> r.
Proof.
  induction chars as [|c chars IH]; simpl.
  - by destruct r.
  - rewrite IH. unfold ConfigureHost.emit. by destruct r.
Qed.

(** Both hints come out as the coloured line naming port 12306 when the
    address holds no backslash. *)
Lemma hint_output ip :
  "\"%char ∉ list_ascii_of_string ip →
  ConfigureHost.echo_e
    (ConfigureHost.BLUE +:+ "  Your MCP clients should connect to: "
       +:+ ConfigureHost.connect_url ip +:+ ConfigureHost.NC)
  = Some (ConfigureHost.hint_line ip ConfigureHost.printed_port).
Proof.
  intros Hip. unfold ConfigureHost.echo_e, ConfigureHost.connect_url.
  rewrite !string_app_assoc.
  change (ConfigureHost.echo_e_from ConfigureHost.Plain
            (ConfigureHost.BLUE +:+ "  Your MCP clients should connect to: "
               +:+ "http://" +:+ ip +:+ ":12306/mcp" +:+ ConfigureHost.NC))
    with (fold_right ConfigureHost.emit
            (ConfigureHost.echo_e_from ConfigureHost.Plain
               (ip +:+ ":12306/mcp" +:+ ConfigureHost.NC))
            (list_ascii_of_string
               (String "027"%char
                  "[0;34m  Your MCP clients should connect to: http://"))).
  rewrite fold_emit, (echo_plain_app ip _ Hip).
  change (ConfigureHost.echo_e_from ConfigureHost.Plain
            (":12306/mcp" +:+ ConfigureHost.NC))
    with (Some (":12306/mcp" +:+ String "027"%char "[0m"
                  +:+ String "010"%char "")).
  cbn [fmap option_fmap option_map].
  unfold ConfigureHost.hint_line, ConfigureHost.url_of.
  rewrite !string_app_assoc. reflexivity.
Qed.

(** C5, as amended: the host of the endpoint is the value of
    MCP_CHROME_HOST when that variable is set to a non-empty string, and
    0.0.0.0 when it is unset or empty.  The program names two ports: the
    server-port constant is 56889, while both connection URLs printed by
    the host-configuration script carry port 12306, for every address
    without a backslash ([echo -e] expands backslash escapes in the
    address it prints). *)
Theorem endpoint_host_and_named_ports :
  (∀ (env : Constant.process_env) c s,
     Constant.SERVER_CONFIG_HOST (<["MCP_CHROME_HOST" := String c s]> env)
     = String c s) ∧
  (∀ env : Constant.process_env,
     Constant.SERVER_CONFIG_HOST (<["MCP_CHROME_HOST" := ""]> env)
     = "0.0.0.0") ∧
  (∀ env : Constant.process_env,
     Constant.SERVER_CONFIG_HOST (delete "MCP_CHROME_HOST" env) = "0.0.0.0") ∧
  Constant.NATIVE_SERVER_PORT = 56889 ∧
  ConfigureHost.printed_port = 12306 ∧
  (∀ ip,
     "\"%char ∉ list_ascii_of_string ip →
     ConfigureHost.tailscale_hint ip
     = Some (ConfigureHost.hint_line ip ConfigureHost.printed_port)) ∧
  (∀ ip,
     "\"%char ∉ list_ascii_of_string ip →
     ConfigureHost.set_hint ip
     = Some (ConfigureHost.hint_line ip ConfigureHost.printed_port)).
Proof.
  unfold Constant.SERVER_CONFIG_HOST, Constant.process_env.
  split; [intros; by rewrite lookup_insert_eq|].
  split; [intros; by rewrite lookup_insert_eq|].
  split; [intros; by rewrite lookup_delete_eq|].
  split; [reflexivity|]. split; [reflexivity|].
  split; intros ip Hip; by apply hint_output.
Qed.

Lemma endpoint_host_and_named_ports_witness :
  ConfigureHost.set_hint "127.0.0.1"
  = Some (ConfigureHost.hint_line "127.0.0.1" ConfigureHost.printed_port).
Proof.
  apply (proj2 (proj2 (proj2 (proj2 (proj2 (proj2
           endpoint_host_and_named_ports)))))).
  apply (bool_decide_unpack _). vm_compute. exact I.
Defined.

Example set_hint_escape_in_host :
  ConfigureHost.set_hint "x\c"
  = Some (String "027"%char
            "[0;34m  Your MCP clients should connect to: http://x").
Proof. reflexivity. Qed.

(** C5 as first stated fails twice: with MCP_CHROME_HOST set to the empty
    string the host is 0.0.0.0 and not that value, and the URL printed
    for 127.0.0.1 does not name the server-port constant. *)
Lemma endpoint_port_not_single :
  Constant.SERVER_CONFIG_HOST {["MCP_CHROME_HOST" := ""]} ≠ "" ∧
  ConfigureHost.connect_url "127.0.0.1" ≠
    ConfigureHost.url_of "127.0.0.1" Constant.NATIVE_SERVER_PORT ∧
  ConfigureHost.printed_port ≠ Constant.NATIVE_SERVER_PORT.
Proof. repeat split; by vm_compute. Qed.

Example set_hint_localhost :
  ConfigureHost.connect_url "127.0.0.1" = "http://127.0.0.1:12306/mcp".
Proof. reflexivity. Qed.

(** ** The wrapper's text filters *)

Section filters.
Import RunHost.

Lemma bytes_tr_d set s c :
  c ∈ list_ascii_of_string (tr_d set s) ↔
  c ∈ list_ascii_of_string s ∧ c ∉ set.
Proof.
  induction s as [|a s IH]; simpl.
  - rewrite elem_of_nil. tauto.
  - case_bool_decide as Ha; simpl; rewrite ?elem_of_cons, IH.
    + split; [tauto|]. intros [[->|?] ?]; tauto.
    + split; [|tauto]. intros [->|[? ?]]; tauto.
Qed.

Lemma bytes_head_c n s c :
  c ∈ list_ascii_of_string (head_c n s) → c ∈ list_ascii_of_string s.
Proof.
  revert s. induction n as [|n IH]; intros [|a s]; simpl;
    rewrite ?elem_of_nil; try tauto.
  rewrite !elem_of_cons. intros [->|H]; auto.
Qed.

Lemma tr_d_id set s : (∀ c, c ∈ set → c ∉ list_ascii_of_string s) → tr_d set s = s.
Proof.
  induction s as [|a s IH]; simpl; intros H; [done|].
  case_bool_decide as Ha.
  - exfalso. apply (H a Ha). apply list_elem_of_here.
  - f_equal. apply IH. intros c Hc Hin.
    apply (H c Hc). by apply list_elem_of_further.
Qed.

Lemma strip_trailing_newlines_id s :
  LF ∉ list_ascii_of_string s → strip_trailing_newlines s = s.
Proof.
  induction s as [|a s IH]; simpl; intros H; [done|].
  rewrite not_elem_of_cons in H. destruct H as [Ha Hs].
  rewrite (IH Hs). destruct s; [|done].
  by rewrite bool_decide_eq_false_2.
Qed.

Lemma length_head_c n s :
  String.length (head_c n s) = (n `min` String.length s)%nat.
Proof.
  revert s. induction n as [|n IH]; intros [|a s]; simpl; auto.
Qed.

Lemma head_c_all n s : (String.length s ≤ n)%nat → head_c n s = s.
Proof.
  revert s. induction n as [|n IH]; intros [|a s]; simpl; intros H;
    try done; try lia.
  f_equal. apply IH. lia.
Qed.

Lemma length_tr_d set s :
  (String.length (tr_d set s) ≤ String.length s)%nat.
Proof.
  induction s as [|a s IH]; simpl; [done|].
  case_bool_decide; simpl; lia.
Qed.

(** What the pipeline leaves in the variable, in the words of
    [sanitized]: the shell drops the NUL bytes of the 50 it is given. *)
Lemma read_host_sanitized f :
  read_host f = tr_d [NUL] (sanitized (cat_quiet f)).
Proof.
  unfold read_host, command_subst, sanitized, stripped.
  apply strip_trailing_newlines_id.
  intros H. apply bytes_tr_d in H as [H _].
  apply bytes_head_c, bytes_tr_d in H as [_ H].
  apply H. apply list_elem_of_here.
Qed.

Lemma length_read_host f : (String.length (read_host f) ≤ 50)%nat.
Proof.
  rewrite read_host_sanitized. unfold sanitized.
  etransitivity; [apply length_tr_d|]. rewrite length_head_c. lia.
Qed.

Lemma param_default_cases v d :
  (v = "" ∧ param_default (Some v) d = d) ∨
  (v ≠ "" ∧ param_default (Some v) d = v).
Proof. destruct v; [by left|by right]. Qed.
End filters.

(** ** Resolution of MCP_CHROME_HOST by the wrapper *)

(** C9: a non-empty MCP_CHROME_HOST inherited from the environment is
    exported unchanged whatever the two configuration files hold; only
    when the variable is unset or empty is the file in the script
    directory consulted, then (if there is no such file) the one in the
    user's home, then the default 0.0.0.0.  The environment is thus
    checked first, though the script's comment lists it third. *)
Theorem environment_host_checked_first :
  (∀ c s script_file home_file,
     RunHost.exported_host
       (RunHost.World (Some (String c s)) script_file home_file)
     = String c s) ∧
  (∀ w,
     match RunHost.env_MCP_CHROME_HOST w with
     | Some (String c s) => RunHost.exported_host w = String c s
     | Some EmptyString | None =>
         RunHost.exported_host w =
           if RunHost.is_file (RunHost.CONFIG_FILE w) then
             RunHost.param_default
               (Some (RunHost.read_host (RunHost.CONFIG_FILE w))) "0.0.0.0"
           else if RunHost.is_file (RunHost.USER_CONFIG_FILE w) then
             RunHost.param_default
               (Some (RunHost.read_host (RunHost.USER_CONFIG_FILE w)))
               "0.0.0.0"
           else "0.0.0.0"
     end).
Proof.
  split.
  - reflexivity.
  - intros [[[|c s]|] f1 f2]; unfold RunHost.exported_host, RunHost.load_host;
      simpl; try reflexivity;
      destruct (RunHost.is_file f1); try reflexivity;
      destruct (RunHost.is_file f2); reflexivity.
Qed.

Example environment_beats_both_files :
  RunHost.exported_host
    (RunHost.World (Some "127.0.0.1")
                   (RunHost.Regular "100.64.0.1")
                   (RunHost.Regular "10.0.0.7"))
  = "127.0.0.1".
Proof. reflexivity. Qed.

Example script_dir_file_beats_home_file :
  RunHost.exported_host
    (RunHost.World None (RunHost.Regular "100.64.0.1")
                        (RunHost.Regular "10.0.0.7"))
  = "100.64.0.1".
Proof. reflexivity. Qed.

(** C10, as amended: when the wrapper reads a configuration file (the
    variable being unset or empty), the value it exports is the file's
    content with all newline, carriage-return and space characters
    removed, cut to at most 50 bytes, and with the NUL bytes among those
    dropped by the shell, provided that this is not empty; when it is
    empty, or the file cannot be read, the exported value is the default
    0.0.0.0.  For a content
    without NUL bytes the value before defaulting is exactly the
    stripped content cut to 50 bytes; it never exceeds 50 bytes, and a
    stripped content longer than 50 bytes is cut to its first 50. *)
Theorem config_file_host_sanitized
    (e : option string) (content : string) (other : RunHost.file_state) :
  e = None ∨ e = Some "" →
  let v := RunHost.tr_d [RunHost.NUL] (RunHost.sanitized content) in
  RunHost.exported_host (RunHost.World e (RunHost.Regular content) other)
    = RunHost.param_default (Some v) "0.0.0.0" ∧
  RunHost.exported_host (RunHost.World e RunHost.NoFile (RunHost.Regular content))
    = RunHost.param_default (Some v) "0.0.0.0" ∧
  RunHost.exported_host (RunHost.World e RunHost.Unreadable other) = "0.0.0.0" ∧
  ((v = "" ∧ RunHost.param_default (Some v) "0.0.0.0" = "0.0.0.0") ∨
   (v ≠ "" ∧ RunHost.param_default (Some v) "0.0.0.0" = v)) ∧
  (RunHost.NUL ∉ list_ascii_of_string content → v = RunHost.sanitized content) ∧
  (String.length v ≤ 50)%nat ∧
  ((50 < String.length (RunHost.stripped content))%nat →
   String.length (RunHost.sanitized content) = 50%nat ∧
   RunHost.sanitized content ≠ RunHost.stripped content).
Proof.
  intros He v.
  assert (Hread : RunHost.read_host (RunHost.Regular content) = v)
    by apply read_host_sanitized.
  split; [|split; [|split; [|split; [|split; [|split]]]]].
  - destruct He as [-> | ->];
      unfold RunHost.exported_host, RunHost.load_host; simpl;
      by rewrite Hread.
  - destruct He as [-> | ->];
      unfold RunHost.exported_host, RunHost.load_host; simpl;
      by rewrite Hread.
  - by destruct He as [-> | ->].
  - apply param_default_cases.
  - intros Hnul. subst v. apply tr_d_id.
    intros c Hc Hin. apply list_elem_of_singleton in Hc as ->.
    unfold RunHost.sanitized, RunHost.stripped in Hin.
    apply bytes_head_c, bytes_tr_d in Hin as [Hin _]. by apply Hnul.
  - rewrite <- Hread. apply length_read_host.
  - intros Hlong. unfold RunHost.sanitized.
    assert (Hlen : String.length (RunHost.head_c 50 (RunHost.stripped content))
                   = 50%nat) by (rewrite length_head_c; lia).
    split; [exact Hlen|]. intros Heq. rewrite Heq in Hlen. lia.
Qed.

Lemma config_file_host_sanitized_witness :
  RunHost.exported_host
    (RunHost.World None (RunHost.Regular RunHost.sample_host_file)
                   RunHost.NoFile)
  = "100.64.0.1".
Proof.
  exact (proj1 (config_file_host_sanitized
                  None RunHost.sample_host_file RunHost.NoFile
                  (or_introl eq_refl))).
Defined.

(** C10 as first stated fails on a file holding only a newline, for
    which 0.0.0.0 is exported rather than the empty sanitized content,
    and on a file with a NUL byte, which the shell drops. *)
Lemma empty_config_file_exports_default :
  RunHost.exported_host
    (RunHost.World None (RunHost.Regular (String RunHost.LF "")) RunHost.NoFile)
    ≠ RunHost.sanitized (String RunHost.LF "") ∧
  RunHost.exported_host
    (RunHost.World None
       (RunHost.Regular (String "1"%char (String RunHost.NUL "0")))
       RunHost.NoFile)
    ≠ RunHost.sanitized (String "1"%char (String RunHost.NUL "0")).
Proof. split; by vm_compute. Qed.

(** ** The request correlator *)

Section correlator.
Import Bridge.
Local Open Scope N_scope.

Lemma inv_init : inv init.
Proof.
  split; simpl.
  - intros k p H. by rewrite lookup_empty in H.
  - done.
Qed.

Lemma inv_send s t : inv s → inv (send s t).1.
Proof.
  intros Hinv. unfold send.
  destruct (conn s) eqn:Hc; simpl; try exact Hinv.
  destruct Hinv as [Hid Hconn]. split; simpl.
  - intros k p [[<- <-]|[Hne Hk]]%lookup_insert_Some; simpl.
    + split; [done|lia].
    + destruct (Hid k p Hk). split; [done|lia].
  - by intros [|].
Qed.

Lemma inv_step s e : inv s → inv (step s e).1.
Proof.
  intros Hinv. destruct e as [payload t|i r|dt| | | |]; simpl.
  - by apply inv_send.
  - destruct Hinv as [Hid Hconn].
    destruct (pending s !! i) as [q|] eqn:Hi; simpl; [|by split].
    split; simpl.
    + intros k p [_ Hk]%lookup_delete_Some. by apply Hid.
    + intros Hc. rewrite (Hconn Hc) in Hi. by rewrite lookup_empty in Hi.
  - destruct Hinv as [Hid Hconn]. split; simpl.
    + intros k p [Hk _]%map_lookup_filter_Some. by apply Hid.
    + intros Hc. rewrite (Hconn Hc). apply map_filter_empty.
  - destruct (conn s) eqn:Hc; try exact Hinv.
    destruct Hinv as [Hid Hconn].
    split; simpl; [done|]. intros _. apply Hconn. by left.
  - destruct (conn s) eqn:Hc; try exact Hinv.
    destruct Hinv as [Hid Hconn].
    split; simpl; [done|]. by intros [|].
  - destruct (conn s) eqn:Hc; try exact Hinv.
    destruct Hinv as [Hid Hconn].
    split; simpl; [done|]. by intros [|].
  - split; simpl; [|done]. intros k p H. by rewrite lookup_empty in H.
Qed.

Lemma inv_reachable s : reachable s → inv s.
Proof. induction 1; [apply inv_init|by apply inv_step]. Qed.

Lemma elem_of_outstanding s p :
  p ∈ outstanding s ↔ ∃ k, pending s !! k = Some p.
Proof.
  unfold outstanding. rewrite list_elem_of_fmap. split.
  - intros [[k p'] [-> H]]. exists k. by apply elem_of_map_to_list.
  - intros [k H]. exists (k, p). split; [done|].
    by apply elem_of_map_to_list.
Qed.

(** Under the invariant the identifiers of the outstanding requests
    are the keys of the table. *)
Lemma outstanding_ids s :
  inv s → pr_id <$> outstanding s = (map_to_list (pending s)).*1.
Proof.
  intros [Hid _]. unfold outstanding.
  assert (H : Forall (λ kp, pr_id kp.2 = kp.1) (map_to_list (pending s))).
  { apply Forall_forall. intros [k p] Hin. simpl.
    apply elem_of_map_to_list in Hin. by apply Hid. }
  revert H. generalize (map_to_list (pending s)). intros l H.
  induction H as [|[k p] l Hkp _ IH]; simpl in *; [done|].
  f_equal; [exact Hkp|exact IH].
Qed.

Lemma at_most_one_by_key {A B : Type} `{EqDecision B}
    (f : A → B) (l : list A) (b : B) :
  NoDup (f <$> l) → (length (filter (λ x, f x = b) l) ≤ 1)%nat.
Proof.
  induction l as [|a l IH]; simpl; intros Hnd; [lia|].
  apply NoDup_cons in Hnd as [Ha Hnd].
  rewrite filter_cons. case_decide as Hab; simpl; [|by apply IH].
  assert (Hnone : filter (λ x, f x = b) l = []).
  { destruct (filter (λ x, f x = b) l) as [|x l'] eqn:Hf; [done|].
    assert (Hx : x ∈ filter (λ x, f x = b) l)
      by (rewrite Hf; apply list_elem_of_here).
    apply list_elem_of_filter in Hx as [Hfx Hx].
    exfalso. apply Ha. rewrite Hab, <- Hfx. by apply list_elem_of_fmap_2. }
  rewrite Hnone. simpl. lia.
Qed.
End correlator.

Section correlator_claims.
Import Bridge.
Local Open Scope N_scope.

Lemma run_cons s e es :
  run s (e :: es) =
  ((run (step s e).1 es).1, (step s e).2 :: (run (step s e).1 es).2).
Proof.
  simpl. destruct (step s e) as [s1 n]. simpl.
  by destruct (run s1 es).
Qed.

Lemma reachable_run s es : reachable s → reachable (run s es).1.
Proof.
  revert s. induction es as [|e es IH]; intros s Hs; [done|].
  rewrite run_cons. simpl. apply IH. by constructor.
Qed.

Lemma send_accepted s t s' i :
  send s t = (s', Accepted i) →
  conn s = connected ∧ i = next_id s ∧ s' = (step s (Send "" t)).1 ∧
  pending s' = <[i := Pending i (now s + t)]> (pending s).
Proof.
  unfold step, send. destruct (conn s); intros [= <- <-]; done.
Qed.

Lemma at_most_one_outstanding s i :
  inv s → (length (filter (λ p, pr_id p = i) (outstanding s)) ≤ 1)%nat.
Proof.
  intros Hinv. apply at_most_one_by_key.
  rewrite (outstanding_ids _ Hinv). apply NoDup_fst_map_to_list.
Qed.

(** While the Connection is down and has not been established again,
    it stays down. *)
Lemma down_until_established es s :
  conn s = disconnected ∨ conn s = connecting →
  Established ∉ es →
  conn (run s es).1 = disconnected ∨ conn (run s es).1 = connecting.
Proof.
  revert s. induction es as [|e es IH]; intros s Hs Hes; [done|].
  rewrite run_cons. simpl.
  apply not_elem_of_cons in Hes as [He Hes].
  apply IH; [|done].
  destruct e; try done; simpl; unfold send;
    destruct (conn s) eqn:Hc; destruct Hs as [?|?]; try discriminate;
    try destruct (pending s !! _); simpl; rewrite ?Hc; auto.
Qed.

(** C7: in every reachable state of the Request Correlator, for every
    correlation identifier i at most one outstanding PendingRequest
    has identifier i; and the identifier given to a newly accepted
    request is the identifier of no PendingRequest outstanding at that
    moment, the new request being afterwards the only one with it. *)
Theorem correlation_id_unique (s : state) :
  reachable s →
  (∀ i, (length (filter (λ p, pr_id p = i) (outstanding s)) ≤ 1)%nat) ∧
  (∀ timeoutMs s' i,
     send s timeoutMs = (s', Accepted i) →
     (∀ p, p ∈ outstanding s → pr_id p ≠ i) ∧
     filter (λ p, pr_id p = i) (outstanding s')
       = [Pending i (now s + timeoutMs)]).
Proof.
  intros Hs. pose proof (inv_reachable _ Hs) as Hinv. split.
  - intros i. by apply at_most_one_outstanding.
  - intros t s' i Hsend.
    apply send_accepted in Hsend as (Hc & -> & -> & Hp). split.
    + intros p [k Hk]%elem_of_outstanding Hid.
      destruct Hinv as [Hkeys _]. destruct (Hkeys k p Hk) as [Hpk Hlt]. lia.
    + set (s' := (step s (Send "" t)).1) in *.
      set (new := Pending (next_id s) (now s + t)).
      assert (Hin : new ∈ filter (λ p, pr_id p = next_id s) (outstanding s')).
      { apply list_elem_of_filter. split; [done|].
        apply elem_of_outstanding. exists (next_id s).
        rewrite Hp. apply lookup_insert_eq. }
      assert (Hone := at_most_one_outstanding s' (next_id s)
                        (inv_step s (Send "" t) Hinv)).
      destruct (filter (λ p, pr_id p = next_id s) (outstanding s'))
        as [|x [|y l]]; simpl in Hone.
      * by apply elem_of_nil in Hin.
      * apply list_elem_of_singleton in Hin. by subst.
      * lia.
Qed.

(** C8: when the Connection is lost in a reachable state with N
    PendingRequests outstanding, that one step leaves the Connection
    disconnected with no PendingRequest outstanding and tells exactly
    the N waiting callers ConnectionLostError, nobody anything else;
    every request submitted afterwards is refused until the Connection
    is established again, and no reachable state has the Connection
    disconnected with a PendingRequest still outstanding. *)
Theorem connection_loss_rejects_all (s : state) :
  reachable s →
  let s' := (step s ConnectionLost).1 in
  let n := (step s ConnectionLost).2 in
  conn s' = disconnected ∧
  outstanding s' = [] ∧
  dom n = dom (pending s) ∧
  size n = length (outstanding s) ∧
  (∀ p, p ∈ outstanding s → n !! pr_id p = Some ConnectionLostError) ∧
  (∀ i o, n !! i = Some o →
          o = ConnectionLostError ∧ ∃ p, p ∈ outstanding s ∧ pr_id p = i) ∧
  (∀ es t, Established ∉ es →
           send (run s' es).1 t = ((run s' es).1, Refused) ∧
           outstanding (run s' es).1 = []) ∧
  (conn s = disconnected → outstanding s = []).
Proof.
  intros Hs s' n. pose proof (inv_reachable _ Hs) as Hinv.
  destruct (Hinv) as [Hkeys Hdown].
  split; [done|]. split; [done|].
  split; [apply dom_fmap_L|].
  split.
  { subst n. simpl. rewrite map_size_fmap. unfold outstanding.
    by rewrite length_fmap, length_map_to_list. }
  split.
  { intros p [k Hk]%elem_of_outstanding. subst n. simpl.
    destruct (Hkeys k p Hk) as [-> _]. by rewrite lookup_fmap, Hk. }
  split.
  { intros i o. subst n. simpl.
    intros (p & <- & Hp)%lookup_fmap_Some. split; [done|].
    exists p. split; [apply elem_of_outstanding; by exists i|].
    by destruct (Hkeys i p Hp). }
  split.
  { intros es t Hes.
    assert (Hr : reachable (run s' es).1)
      by (apply reachable_run; by constructor).
    assert (Hc : conn (run s' es).1 = disconnected
                 ∨ conn (run s' es).1 = connecting)
      by (apply down_until_established; [by left|done]).
    split.
    - unfold send. by destruct Hc as [-> | ->].
    - apply inv_reachable in Hr as [_ Hempty].
      unfold outstanding. by rewrite (Hempty Hc), map_to_list_empty. }
  intros Hc. unfold outstanding.
  rewrite Hdown; [|by left]. by rewrite map_to_list_empty.
Qed.
End correlator_claims.

(** ** A request the extension never answers *)

Section timeouts.
Import Bridge.
Local Open Scope N_scope.

Lemma elapsed_cons e es : elapsed (e :: es) = elapsed [e] + elapsed es.
Proof. destruct e; simpl; lia. Qed.

Lemma delivered_cons i (n : notices) ns :
  delivered i (n :: ns) =
  match n !! i with
  | Some o => o :: delivered i ns
  | None => delivered i ns
  end.
Proof. reflexivity. Qed.

(** An identifier that is not pending and lies below the counter is
    not notified and does not become pending again. *)
Lemma step_gone s e i :
  pending s !! i = None → i < next_id s →
  pending (step s e).1 !! i = None ∧ i < next_id (step s e).1 ∧
  (step s e).2 !! i = None.
Proof.
  intros Hi Hlt. destruct e as [payload t|j r|dt| | | |]; simpl.
  - unfold send. destruct (conn s); simpl; try done.
    split; [|split; [lia|done]].
    rewrite lookup_insert_ne; [done|lia].
  - destruct (pending s !! j) as [q|] eqn:Hj; simpl; [|done].
    assert (j ≠ i) by congruence.
    split; [|split; [done|]].
    + apply lookup_delete_None. by right.
    + by apply lookup_singleton_ne.
  - split; [|split; [done|]].
    + apply map_lookup_filter_None. by left.
    + rewrite lookup_fmap. apply fmap_None, map_lookup_filter_None. by left.
  - by destruct (conn s).
  - by destruct (conn s).
  - by destruct (conn s).
  - split; [done|]. split; [done|]. by rewrite lookup_fmap, Hi.
Qed.

Lemma step_conn_silent s e i :
  conn s = connected → silent_for i e = true →
  conn (step s e).1 = connected.
Proof.
  intros Hc Hq. destruct e as [payload t|j r|dt| | | |]; simpl in *;
    try discriminate; unfold send; rewrite ?Hc; try done.
  by destruct (pending s !! j).
Qed.

Lemma run_gone i es s :
  pending s !! i = None → i < next_id s → conn s = connected →
  forallb (silent_for i) es = true →
  conn (run s es).1 = connected ∧ pending (run s es).1 !! i = None ∧
  delivered i (run s es).2 = [].
Proof.
  revert s. induction es as [|e es IH]; intros s Hi Hlt Hc Hq; [done|].
  simpl in Hq. apply andb_prop in Hq as [He Hes].
  rewrite run_cons. cbn [fst snd]. rewrite delivered_cons.
  destruct (step_gone s e i Hi Hlt) as (Hi' & Hlt' & ->).
  apply IH; try done. by apply (step_conn_silent s e i).
Qed.

(** One step of a request that is waiting: it keeps waiting while its
    deadline lies ahead and is failed with TimeoutError by the step
    that reaches the deadline. *)
Lemma step_waiting s e i p :
  pending s !! i = Some p → now s < pr_deadline p → i < next_id s →
  silent_for i e = true →
  i < next_id (step s e).1 ∧
  now (step s e).1 = now s + elapsed [e] ∧
  ((now (step s e).1 < pr_deadline p ∧
    pending (step s e).1 !! i = Some p ∧ (step s e).2 !! i = None) ∨
   (pr_deadline p ≤ now (step s e).1 ∧
    pending (step s e).1 !! i = None ∧
    (step s e).2 !! i = Some TimeoutError)).
Proof.
  intros Hi Hnow Hlt Hq.
  destruct e as [payload t|j r|dt| | | |]; simpl in *; try discriminate.
  - unfold send. destruct (conn s); simpl;
      (split; [lia|]); (split; [lia|]); left;
      rewrite ?lookup_insert_ne by lia; done.
  - apply negb_true_iff, N.eqb_neq in Hq.
    destruct (pending s !! j) as [q|] eqn:Hj; simpl;
      (split; [lia|]); (split; [lia|]); left;
      rewrite ?lookup_delete_ne, ?lookup_singleton_ne by done; done.
  - split; [done|]. split; [lia|].
    destruct (decide (now s + dt < pr_deadline p)) as [Hlive|Hdead].
    + left. split; [done|]. split.
      * by apply map_lookup_filter_Some.
      * rewrite lookup_fmap. apply fmap_None, map_lookup_filter_None.
        right. intros q Hq'. simpl. simplify_eq. lia.
    + right. split; [lia|]. split.
      * apply map_lookup_filter_None. right. intros q Hq'. simpl.
        simplify_eq. lia.
      * rewrite lookup_fmap.
        assert (Hf : filter (λ kp, pr_deadline kp.2 ≤ now s + dt) (pending s)
                       !! i = Some p)
          by (apply map_lookup_filter_Some; split; [done|simpl; lia]).
        by rewrite Hf.
  - destruct (conn s); simpl; (split; [lia|]); (split; [lia|]); by left.
  - destruct (conn s); simpl; (split; [lia|]); (split; [lia|]); by left.
Qed.

Lemma run_waiting i p es s :
  pending s !! i = Some p → now s < pr_deadline p → i < next_id s →
  conn s = connected → forallb (silent_for i) es = true →
  conn (run s es).1 = connected ∧
  (now s + elapsed es < pr_deadline p →
   pending (run s es).1 !! i = Some p ∧ delivered i (run s es).2 = []) ∧
  (pr_deadline p ≤ now s + elapsed es →
   pending (run s es).1 !! i = None ∧
   delivered i (run s es).2 = [TimeoutError]).
Proof.
  revert s. induction es as [|e es IH]; intros s Hi Hnow Hlt Hc Hq.
  - simpl. split; [done|]. split; [done|]. lia.
  - simpl in Hq. apply andb_prop in Hq as [He Hes].
    rewrite run_cons, elapsed_cons. cbn [fst snd]. rewrite delivered_cons.
    pose proof (step_conn_silent s e i Hc He) as Hc'.
    destruct (step_waiting s e i p Hi Hnow Hlt He)
      as (Hlt' & Hnow' & [(Hahead & Hi' & ->)|(Hpast & Hi' & ->)]).
    + destruct (IH _ Hi' Hahead Hlt' Hc' Hes) as (IHc & IHw & IHt).
      rewrite Hnow' in IHw, IHt.
      split; [done|]. split; intros H; [apply IHw|apply IHt]; lia.
    + destruct (run_gone i es _ Hi' Hlt' Hc' Hes) as (Gc & Gp & ->).
      split; [done|]. split; [lia|done].
Qed.
End timeouts.

Section gateway_claims.
Import Bridge.
Local Open Scope N_scope.

Lemma default_timeout_value : default_timeout = 15000.
Proof. reflexivity. Qed.

Lemma reachable_established : reachable established.
Proof. apply reachable_run, reachable_init. Qed.

Lemma reachable_two_in_flight : reachable two_in_flight.
Proof. apply reachable_run, reachable_established. Qed.

(** C6: a request submitted with the default timeout class (15000 ms)
    on a connected bridge, which the extension never answers while the
    Connection is neither stopped nor lost, is still pending and its
    client has received nothing as long as fewer than 15000 ms have
    passed; once 15000 ms have passed the request has failed with
    TimeoutError and the client has received exactly one reply, status
    504 with the fixed request-timeout message; the Connection is
    connected at the end, the passing of time never changes the
    Connection state, and a deadline that passes fails only the request
    whose deadline it is. *)
Theorem unanswered_default_request_times_out
    (s : state) (payload : Payload) (es : list event) :
  conn s = connected →
  forallb (silent_for (next_id s)) es = true →
  let i := next_id s in
  let r := run s (Send payload default_timeout :: es) in
  send s default_timeout
    = ((step s (Send payload default_timeout)).1, Accepted i) ∧
  conn r.1 = connected ∧
  (elapsed es < 15000 →
   pending r.1 !! i = Some (Pending i (now s + 15000)) ∧
   http_replies i r.2 = []) ∧
  (15000 ≤ elapsed es →
   pending r.1 !! i = None ∧
   delivered i r.2 = [TimeoutError] ∧
   http_replies i r.2
     = [(504%Z, ErrorMessage "Request to extension timed out.")]) ∧
  (∀ s0 dt, conn (step s0 (Elapse dt)).1 = conn s0) ∧
  (∀ s0 dt j o,
     (step s0 (Elapse dt)).2 !! j = Some o →
     o = TimeoutError ∧
     ∃ q, pending s0 !! j = Some q ∧ pr_deadline q ≤ now s0 + dt).
Proof.
  intros Hc Hq i r.
  set (s1 := (step s (Send payload default_timeout)).1).
  set (p := Pending i (now s + 15000)).
  assert (Hsend : send s default_timeout = (s1, Accepted i)).
  { subst s1. unfold step, send. by rewrite Hc. }
  assert (Hp : pending s1 !! i = Some p).
  { subst s1 p. unfold step, send. rewrite Hc. cbn [fst pending].
    rewrite default_timeout_value. apply lookup_insert_eq. }
  assert (Hnow : now s1 = now s).
  { subst s1. simpl. unfold send. by rewrite Hc. }
  assert (Hnext : i < next_id s1).
  { subst s1. simpl. unfold send. rewrite Hc. simpl. lia. }
  assert (Hc1 : conn s1 = connected).
  { subst s1. simpl. unfold send. by rewrite Hc. }
  assert (Hahead : now s1 < pr_deadline p) by (rewrite Hnow; simpl; lia).
  destruct (run_waiting i p es s1 Hp Hahead Hnext Hc1 Hq)
    as (Rc & Rw & Rt).
  assert (Hr1 : r.1 = (run s1 es).1) by (subst r; by rewrite run_cons).
  assert (Hr2 : delivered i r.2 = delivered i (run s1 es).2).
  { subst r. rewrite run_cons. cbn [snd]. by rewrite delivered_cons. }
  unfold http_replies. rewrite Hr1, Hr2.
  rewrite Hnow in Rw, Rt. simpl in Rw, Rt.
  split; [done|]. split; [done|].
  split.
  { intros H. destruct Rw as [Rp ->]; [lia|]. done. }
  split; [intros H; destruct Rt as [Rp ->]; [lia|]; done|].
  split; [done|].
  intros s0 dt j o. simpl.
  intros (q & <- & [Hq' Hd]%map_lookup_filter_Some)%lookup_fmap_Some.
  split; [done|]. by exists q.
Qed.

Lemma unanswered_default_request_times_out_witness :
  conn (run established [Send "tabs" default_timeout; Elapse 15000]).1
    = connected ∧
  http_replies 0
    (run established [Send "tabs" default_timeout; Elapse 15000]).2
    = [(504%Z, ErrorMessage "Request to extension timed out.")].
Proof.
  pose proof (unanswered_default_request_times_out
                established "tabs" [Elapse 15000] eq_refl eq_refl) as H.
  cbv zeta in H. destruct H as (_ & Hc & _ & Ht & _).
  split; [exact Hc|]. apply Ht. simpl. lia.
Defined.

Lemma correlation_id_unique_witness :
  (length (filter (λ p, pr_id p = 1%N) (outstanding two_in_flight)) ≤ 1)%nat ∧
  (∀ p, p ∈ outstanding two_in_flight → pr_id p ≠ 2) ∧
  filter (λ p, pr_id p = 2)
         (outstanding (send two_in_flight extension_timeout).1)
    = [Pending 2 20000].
Proof.
  destruct (correlation_id_unique two_in_flight reachable_two_in_flight)
    as [Hone Hfresh].
  split; [exact (Hone 1)|].
  exact (Hfresh extension_timeout
                (send two_in_flight extension_timeout).1 2 eq_refl).
Defined.

Lemma connection_loss_rejects_all_witness :
  conn (step two_in_flight ConnectionLost).1 = disconnected ∧
  outstanding (step two_in_flight ConnectionLost).1 = [] ∧
  dom (step two_in_flight ConnectionLost).2 = dom (pending two_in_flight) ∧
  size (step two_in_flight ConnectionLost).2
    = length (outstanding two_in_flight).
Proof.
  pose proof (connection_loss_rejects_all two_in_flight
                reachable_two_in_flight) as H.
  cbv zeta in H. destruct H as (H1 & H2 & H3 & H4 & _).
  repeat split; assumption.
Defined.

Example two_in_flight_pending :
  pending two_in_flight !! 0 = Some (Pending 0 15000) ∧
  pending two_in_flight !! 1 = Some (Pending 1 20000) ∧
  size (pending two_in_flight) = 2%nat.
Proof. vm_compute. done. Qed.

Example loss_notifies_both :
  (step two_in_flight ConnectionLost).2 !! 0 = Some ConnectionLostError ∧
  (step two_in_flight ConnectionLost).2 !! 1 = Some ConnectionLostError ∧
  size (step two_in_flight ConnectionLost).2 = 2%nat.
Proof. vm_compute. done. Qed.

Example default_deadline_only_fails_first :
  (step two_in_flight (Elapse 15000)).2 !! 0 = Some TimeoutError ∧
  (step two_in_flight (Elapse 15000)).2 !! 1 = None ∧
  pending (step two_in_flight (Elapse 15000)).1 !! 1
    = Some (Pending 1 20000) ∧
  conn (step two_in_flight (Elapse 15000)).1 = connected.
Proof. vm_compute. done. Qed.

Example late_reply_is_dropped :
  (run two_in_flight [Elapse 15000; Response 0 "late"]).2
    !! 1%nat = Some ∅.
Proof. vm_compute. done. Qed.
End gateway_claims.

(** ** Timeout classes *)

Section timeout_classes.
Import Bridge.
Local Open Scope N_scope.



End timeout_classes.

(** * Further properties of the scripts and the command line *)

(** ** The wrapper's exported host *)

Section wrapper_facts.
Import RunHost.

Lemma tr_d_app set a b : tr_d set (a +:+ b) = tr_d set a +:+ tr_d set b.
Proof.
  induction a as [|c a IH]; simpl; [done|].
  case_bool_decide; simpl; by rewrite IH.
Qed.

Lemma tr_d_all set s :
  (∀ c, c ∈ list_ascii_of_string s → c ∈ set) → tr_d set s = "".
Proof.
  induction s as [|a s IH]; simpl; intros H; [done|].
  rewrite bool_decide_eq_true_2 by (apply H, list_elem_of_here).
  apply IH. intros c Hc. by apply H, list_elem_of_further.
Qed.

Lemma bytes_app a b :
  list_ascii_of_string (a +:+ b)
  = (list_ascii_of_string a ++ list_ascii_of_string b)%list.
Proof. induction a as [|c a IH]; simpl; [done|]. by rewrite IH. Qed.

Lemma length_app_string a b :
  String.length (a +:+ b) = (String.length a + String.length b)%nat.
Proof. induction a as [|c a IH]; simpl; [done|]. by rewrite IH. Qed.

(** No byte the pipeline deletes survives in what it leaves. *)
Lemma read_host_bytes f c :
  c ∈ list_ascii_of_string (read_host f) → c ∉ [LF; CR; SP; NUL].
Proof.
  rewrite read_host_sanitized. unfold sanitized, stripped.
  intros [H Hnul]%bytes_tr_d. apply bytes_head_c, bytes_tr_d in H as [_ H].
  intros Hc. apply elem_of_cons in Hc as [->|Hc]; [apply H; in_list|].
  apply elem_of_cons in Hc as [->|Hc]; [apply H; in_list|].
  apply elem_of_cons in Hc as [->|Hc]; [apply H; in_list|].
  apply Hnul, Hc.
Qed.

(** A text within the limit and free of the deleted bytes comes back
    from a file unchanged, with or without the newline [echo] adds. *)
Lemma read_host_clean h :
  (∀ c, c ∈ list_ascii_of_string h → c ∉ [LF; CR; SP; NUL]) →
  (String.length h ≤ 50)%nat →
  read_host (Regular h) = h ∧ read_host (Regular (h +:+ String LF "")) = h.
Proof.
  intros Hclean Hlen.
  assert (Hs : tr_d [LF; CR; SP] h = h).
  { apply tr_d_id. intros c Hc Hin. apply (Hclean c Hin).
    apply list_elem_of_In. apply list_elem_of_In in Hc. simpl in *. tauto. }
  assert (Hn : tr_d [NUL] h = h).
  { apply tr_d_id. intros c Hc Hin. apply (Hclean c Hin).
    apply list_elem_of_In. apply list_elem_of_In in Hc. simpl in *. tauto. }
  assert (Hnil : h +:+ "" = h).
  { clear. induction h as [|a h IH]; [done|].
    change (String a (h +:+ "") = String a h). by rewrite IH. }
  split; rewrite read_host_sanitized; unfold sanitized, stripped, cat_quiet.
  - rewrite Hs, head_c_all by done. exact Hn.
  - rewrite tr_d_app, Hs.
    change (tr_d [LF; CR; SP] (String LF "")) with "".
    rewrite Hnil, head_c_all by done. exact Hn.
Qed.

(** X1: whatever the environment and the two files hold, the wrapper
    exports a non-empty MCP_CHROME_HOST, and a server started under it
    binds to exactly the exported value: the fallback of
    [SERVER_CONFIG.HOST] is never taken. *)
Theorem wrapper_host_reaches_server (w : world) (env : Constant.process_env) :
  exported_host w ≠ "" ∧
  Constant.SERVER_CONFIG_HOST (<["MCP_CHROME_HOST" := exported_host w]> env)
  = exported_host w.
Proof.
  unfold Constant.SERVER_CONFIG_HOST, Constant.process_env.
  rewrite lookup_insert_eq. unfold exported_host.
  by destruct (load_host w).
Qed.

(** X2: a host taken from a configuration file (MCP_CHROME_HOST unset
    or empty) is exported with at most 50 bytes and without any
    newline, carriage return, space or NUL byte. *)
Theorem file_host_is_clean (w : world) :
  env_MCP_CHROME_HOST w = None ∨ env_MCP_CHROME_HOST w = Some "" →
  (String.length (exported_host w) ≤ 50)%nat ∧
  ∀ c, c ∈ list_ascii_of_string (exported_host w) → c ∉ [LF; CR; SP; NUL].
Proof.
  intros He.
  assert (Hd : (String.length "0.0.0.0" ≤ 50)%nat ∧
               ∀ c, c ∈ list_ascii_of_string "0.0.0.0" → c ∉ [LF; CR; SP; NUL]).
  { split; [simpl; lia|]. intros c Hc Hbad.
    simpl in Hc. set_unfold. unfold LF, CR, SP, NUL in Hbad.
    destruct Hc as [->|[->|[->|[->|[->|[->|[->|[]]]]]]]];
      destruct Hbad as [?|[?|[?|[?|[]]]]]; discriminate. }
  assert (Hf : ∀ f,
    (String.length (param_default (Some (read_host f)) "0.0.0.0") ≤ 50)%nat ∧
    ∀ c, c ∈ list_ascii_of_string (param_default (Some (read_host f)) "0.0.0.0")
         → c ∉ [LF; CR; SP; NUL]).
  { intros f.
    destruct (param_default_cases (read_host f) "0.0.0.0")
      as [[_ ->]|[_ ->]]; [exact Hd|].
    split; [apply length_read_host|apply read_host_bytes]. }
  destruct w as [e f1 f2]. simpl in He.
  unfold exported_host, load_host. simpl.
  destruct He as [-> | ->]; simpl;
    (destruct (is_file f1); [apply Hf|]);
    (destruct (is_file f2); [apply Hf|]); exact Hd.
Qed.

Lemma file_host_is_clean_witness :
  (String.length
     (exported_host (World None (Regular sample_host_file) NoFile)) ≤ 50)%nat.
Proof.
  exact (proj1 (file_host_is_clean
                  (World None (Regular sample_host_file) NoFile)
                  (or_introl eq_refl))).
Defined.

(** X3: when MCP_CHROME_HOST is unset or empty and the file in the
    script directory exists but cannot be read, or holds nothing but
    newlines, carriage returns, spaces and NUL bytes, the wrapper
    exports 0.0.0.0 whatever the file in the user's home holds: that
    file is not consulted. *)
Theorem blank_script_file_hides_home_file
    (e : option string) (script_file home_file : file_state) :
  e = None ∨ e = Some "" →
  is_file script_file = true →
  (∀ c, c ∈ list_ascii_of_string (cat_quiet script_file) →
        c ∈ [LF; CR; SP; NUL]) →
  exported_host (World e script_file home_file) = "0.0.0.0".
Proof.
  intros He Hf Hblank.
  assert (Hr : read_host script_file = "").
  { rewrite read_host_sanitized. unfold sanitized, stripped.
    apply tr_d_all. intros c [Hc Hnot]%bytes_head_c%bytes_tr_d.
    specialize (Hblank c Hc). apply list_elem_of_In in Hblank.
    simpl in Hblank. destruct Hblank as [<-|[<-|[<-|[<-|[]]]]];
      try (exfalso; apply Hnot; in_list); in_list. }
  unfold exported_host, load_host. simpl.
  destruct He as [-> | ->]; simpl; by rewrite Hf, Hr.
Qed.

Lemma blank_script_file_hides_home_file_witness :
  exported_host
    (World None (Regular (String SP (String LF ""))) (Regular "100.64.0.1"))
  = "0.0.0.0".
Proof.
  apply blank_script_file_hides_home_file.
  - by left.
  - reflexivity.
  - simpl. intros c Hc. apply list_elem_of_In in Hc. simpl in Hc.
    destruct Hc as [<-|[<-|[]]]; in_list.
Defined.

(** X4: reading is idempotent: a file holding what the wrapper read
    from a configuration file is read back as the same value. *)
Theorem read_host_idempotent (f : file_state) :
  read_host (Regular (read_host f)) = read_host f.
Proof.
  apply read_host_clean.
  - apply read_host_bytes.
  - apply length_read_host.
Qed.
End wrapper_facts.

(** ** The address check of configure-host.sh *)

Section address_check.
Import RunHost HostScript.

Lemma append_nil_r s : s +:+ "" = s.
Proof.
  induction s as [|a s IH]; [done|].
  change (String a (s +:+ "") = String a s). by rewrite IH.
Qed.

Lemma is_digit_in c :
  is_digit c = bool_decide (c ∈ list_ascii_of_string "0123456789").
Proof. destruct c as [[] [] [] [] [] [] [] []]; by vm_compute. Qed.

Lemma all_in_spec set s :
  all_in set s = true ↔ ∀ c, c ∈ list_ascii_of_string s → c ∈ set.
Proof.
  induction s as [|a s IH]; simpl.
  - split; [|done]. intros _ c Hc. by apply elem_of_nil in Hc.
  - rewrite andb_true_iff, bool_decide_eq_true, IH. split.
    + intros [Ha Hs] c [->|Hc]%elem_of_cons; auto.
    + intros H. split; [apply H, list_elem_of_here|].
      intros c Hc. by apply H, list_elem_of_further.
Qed.

Lemma digits_1_3_spec k s :
  digits_1_3 k s = true ↔
  ∃ ds rest, s = ds +:+ rest ∧ octet_text ds ∧ k rest = true.
Proof.
  unfold octet_text. split.
  - destruct s as [|d1 s1]; simpl; [done|].
    rewrite is_digit_in.
    intros [Hd1 H]%andb_true_iff. apply orb_true_iff in H as [H|H].
    { exists (String d1 ""), s1.
      split; [done|]. split; [split; [simpl; lia|]|done].
      apply andb_true_iff; split; [exact Hd1|done]. }
    destruct s1 as [|d2 s2]; [done|]. rewrite is_digit_in in H.
    apply andb_true_iff in H as [Hd2 H]. apply orb_true_iff in H as [H|H].
    { exists (String d1 (String d2 "")), s2.
      split; [done|]. split; [split; [simpl; lia|]|done].
      apply andb_true_iff; split; [exact Hd1|].
      apply andb_true_iff; split; [exact Hd2|done]. }
    destruct s2 as [|d3 s3]; [done|]. rewrite is_digit_in in H.
    apply andb_true_iff in H as [Hd3 H].
    exists (String d1 (String d2 (String d3 ""))), s3.
    split; [done|]. split; [split; [simpl; lia|]|done].
    apply andb_true_iff; split; [exact Hd1|].
    apply andb_true_iff; split; [exact Hd2|].
    apply andb_true_iff; split; [exact Hd3|done].
  - intros (ds & rest & -> & [Hlen Hall] & Hk).
    assert (Hd : ∀ c, c ∈ list_ascii_of_string ds → is_digit c = true).
    { intros c Hc. rewrite is_digit_in. apply bool_decide_eq_true.
      by apply (proj1 (all_in_spec _ _) Hall). }
    destruct ds as [|d1 [|d2 [|d3 [|d4 ds]]]]; simpl in Hlen; try lia.
    + change (digits_1_3 k (String d1 rest) = true). unfold digits_1_3.
      rewrite (Hd d1) by (simpl; in_list). by rewrite Hk.
    + change (digits_1_3 k (String d1 (String d2 rest)) = true).
      unfold digits_1_3.
      rewrite (Hd d1), (Hd d2) by (simpl; in_list).
      rewrite Hk. simpl. by rewrite orb_true_r.
    + change (digits_1_3 k (String d1 (String d2 (String d3 rest))) = true).
      unfold digits_1_3.
      rewrite (Hd d1), (Hd d2), (Hd d3) by (simpl; in_list).
      rewrite Hk. simpl. by rewrite !orb_true_r.
Qed.

Lemma dot_spec k s :
  dot k s = true ↔ ∃ rest, s = String "."%char rest ∧ k rest = true.
Proof.
  destruct s as [|c s]; simpl.
  - split; [done|]. by intros (rest & ? & _).
  - rewrite andb_true_iff, bool_decide_eq_true. split.
    + intros [-> Hk]. by exists s.
    + intros (rest & [= -> ->] & Hk). done.
Qed.

Lemma end_of_string_spec s : end_of_string s = true ↔ s = "".
Proof. by destruct s. Qed.

Lemma ip_pattern_groups (host_ip : string) :
  ip_pattern host_ip = true ↔
  ∃ a b c d,
    octet_text a ∧ octet_text b ∧ octet_text c ∧ octet_text d ∧
    host_ip = a +:+ "." +:+ b +:+ "." +:+ c +:+ "." +:+ d.
Proof.
  unfold ip_pattern. split.
  - intros H.
    apply digits_1_3_spec in H as (a & r1 & -> & Ha & H).
    apply dot_spec in H as (r2 & -> & H).
    apply digits_1_3_spec in H as (b & r3 & -> & Hb & H).
    apply dot_spec in H as (r4 & -> & H).
    apply digits_1_3_spec in H as (c & r5 & -> & Hc & H).
    apply dot_spec in H as (r6 & -> & H).
    apply digits_1_3_spec in H as (d & r7 & -> & Hd & H).
    apply end_of_string_spec in H as ->.
    exists a, b, c, d. by rewrite append_nil_r.
  - intros (a & b & c & d & Ha & Hb & Hc & Hd & ->).
    apply digits_1_3_spec. exists a, ("." +:+ b +:+ "." +:+ c +:+ "." +:+ d).
    split; [done|]. split; [done|].
    apply dot_spec. exists (b +:+ "." +:+ c +:+ "." +:+ d). split; [done|].
    apply digits_1_3_spec. exists b, ("." +:+ c +:+ "." +:+ d).
    split; [done|]. split; [done|].
    apply dot_spec. exists (c +:+ "." +:+ d). split; [done|].
    apply digits_1_3_spec. exists c, ("." +:+ d).
    split; [done|]. split; [done|].
    apply dot_spec. exists d. split; [done|].
    apply digits_1_3_spec. exists d, "".
    by rewrite append_nil_r.
Qed.

(** X5: the address check of [set_config] accepts exactly the texts
    made of four groups of one to three decimal digits separated by
    single dots, whatever the value of each group. *)
Theorem ip_pattern_four_groups (host_ip : string) :
  ip_pattern host_ip = true ↔
  ∃ a b c d,
    octet_text a ∧ octet_text b ∧ octet_text c ∧ octet_text d ∧
    host_ip = a +:+ "." +:+ b +:+ "." +:+ c +:+ "." +:+ d.
Proof. apply ip_pattern_groups. Qed.

Example ip_pattern_unbounded_groups : ip_pattern "999.0.00.256" = true.
Proof. reflexivity. Qed.

Lemma octet_text_bytes a :
  octet_text a →
  (1 ≤ String.length a ≤ 3)%nat ∧
  ∀ c, c ∈ list_ascii_of_string a → is_digit c = true.
Proof.
  intros [Hlen Hall]. split; [done|]. intros c Hc.
  rewrite is_digit_in. apply bool_decide_eq_true.
  by apply (proj1 (all_in_spec _ _) Hall).
Qed.

(** An accepted text has 7 to 15 bytes, all digits or dots, and starts
    with a digit. *)
Lemma ip_pattern_bytes h :
  ip_pattern h = true →
  (7 ≤ String.length h ≤ 15)%nat ∧
  (∀ c, c ∈ list_ascii_of_string h → is_digit c = true ∨ c = "."%char) ∧
  ∃ d rest, h = String d rest ∧ is_digit d = true.
Proof.
  intros (a & b & c & d & Ha & Hb & Hc & Hd & ->)%ip_pattern_groups.
  apply octet_text_bytes in Ha as [La Da], Hb as [Lb Db],
      Hc as [Lc Dc], Hd as [Ld Dd].
  split; [|split].
  - rewrite !length_app_string. simpl. lia.
  - intros x. rewrite !bytes_app.
    change (list_ascii_of_string ".") with ["."%char].
    rewrite !elem_of_app, !list_elem_of_singleton.
    intros [H|[->|[H|[->|[H|[->|H]]]]]]; auto.
  - destruct a as [|x a]; [simpl in La; lia|].
    exists x, (a +:+ "." +:+ b +:+ "." +:+ c +:+ "." +:+ d).
    split; [done|]. apply Da, list_elem_of_here.
Qed.

Lemma needs_confirmation_pattern (host_ip : string) :
  needs_confirmation host_ip = negb (ip_pattern host_ip).
Proof.
  unfold needs_confirmation.
  destruct (ip_pattern host_ip) eqn:Hp; simpl; [done|].
  destruct (String.eqb_spec host_ip "0.0.0.0") as [->|_]; [done|].
  destruct (String.eqb_spec host_ip "127.0.0.1") as [->|_]; done.
Qed.

(** X6: the warning of [set_config] is raised exactly when the text
    fails the address pattern: the two further comparisons with
    0.0.0.0 and 127.0.0.1 never change the outcome. *)
Theorem needs_confirmation_iff_not_pattern (host_ip : string) :
  needs_confirmation host_ip = negb (ip_pattern host_ip).
Proof. apply needs_confirmation_pattern. Qed.
End address_check.

(** ** configure-host.sh as a whole, and the wrapper after it *)

Section host_script.
Import RunHost HostScript.

Lemma parse_plain_word o a rest :
  a ∉ flags →
  parse_args o (a :: rest) =
  if test_z (HOST_IP o) && is_set (MODE o)
  then parse_args (Settings (MODE o) a (USE_USER_CONFIG o)) rest
  else Exit 1.
Proof.
  intros Ha. cbn [parse_args].
  repeat (rewrite bool_decide_eq_false_2;
          [|intros Hin; apply Ha; unfold flags;
            first [ subst a; in_list
                  | apply list_elem_of_In in Hin; simpl in Hin;
                    destruct Hin as [<-|[<-|[]]]; in_list ]]).
  done.
Qed.

Lemma digit_word_not_flag d rest :
  HostScript.is_digit d = true → String d rest ∉ flags.
Proof.
  intros Hd Hin. apply list_elem_of_In in Hin. simpl in Hin.
  repeat (destruct Hin as [Hin|Hin];
          [injection Hin as <- _; by vm_compute in Hd|]).
  done.
Qed.

Lemma echo_options_digit d rest :
  HostScript.is_digit d = true → echo_options (String d rest) = None.
Proof.
  destruct d as [[] [] [] [] [] [] [] []]; intros Hd;
    try (by vm_compute in Hd); reflexivity.
Qed.

Lemma wrapper_after_clean h :
  h ≠ "" →
  (∀ c, c ∈ list_ascii_of_string h → c ∉ [LF; CR; SP; NUL]) →
  (String.length h ≤ 50)%nat →
  wrapper_after (Regular (h +:+ String LF "")) = h.
Proof.
  intros Hne Hclean Hlen. unfold wrapper_after, exported_host, load_host.
  cbn [env_MCP_CHROME_HOST CONFIG_FILE USER_CONFIG_FILE param_default
       test_z is_file].
  rewrite (proj2 (read_host_clean h Hclean Hlen)).
  by destruct h.
Qed.

Lemma ip_pattern_clean h :
  ip_pattern h = true →
  h ≠ "" ∧
  (∀ c, c ∈ list_ascii_of_string h → c ∉ [LF; CR; SP; NUL]) ∧
  (String.length h ≤ 50)%nat.
Proof.
  intros (Hlen & Hbytes & d & rest & -> & Hd)%ip_pattern_bytes.
  split; [done|]. split; [|lia].
  intros c Hc Hbad. apply list_elem_of_In in Hbad. simpl in Hbad.
  destruct (Hbytes c Hc) as [Hdig| ->].
  - destruct Hbad as [<-|[<-|[<-|[<-|[]]]]]; by vm_compute in Hdig.
  - destruct Hbad as [H|[H|[H|[H|[]]]]]; discriminate H.
Qed.

Lemma main_validated host w :
  ip_pattern host = true →
  main [host] w
  = Result 0 (Regular (host +:+ String LF "")) (install_config w).
Proof.
  intros Hp.
  destruct (ip_pattern_bytes host Hp) as (_ & _ & d & rest & -> & Hd).
  unfold main. rewrite parse_plain_word by by apply digit_word_not_flag.
  cbn [defaults HOST_IP MODE USE_USER_CONFIG test_z is_set andb parse_args].
  unfold save_user_config, set_config. cbn [test_z].
  rewrite needs_confirmation_pattern, Hp. cbn [negb].
  unfold bash_echo. by rewrite echo_options_digit.
Qed.

(** X7: for every host that passes the address check, the script run
    with that host as its only argument ends with status 0 and leaves
    the host and a newline in the user's configuration file, whatever
    was there before; a wrapper started afterwards without
    MCP_CHROME_HOST and without a file in its own directory exports
    exactly that host. *)
Theorem validated_host_round_trip (host : string) (w : HostScript.world) :
  ip_pattern host = true →
  main [host] w
    = Result 0 (Regular (host +:+ String LF "")) (install_config w) ∧
  wrapper_after (user_config_after (main [host] w)) = host.
Proof.
  intros Hp. rewrite (main_validated host w Hp). split; [done|].
  cbn [user_config_after].
  destruct (ip_pattern_clean host Hp) as (Hne & Hclean & Hlen).
  by apply wrapper_after_clean.
Qed.

Lemma validated_host_round_trip_witness :
  wrapper_after
    (user_config_after
       (main ["100.64.0.1"]
             (HostScript.World (Regular "10.0.0.7") false NoFile "" None)))
  = "100.64.0.1".
Proof.
  exact (proj2 (validated_host_round_trip "100.64.0.1"
                  (HostScript.World (Regular "10.0.0.7") false NoFile "" None)
                  eq_refl)).
Defined.

(** X8: a run of the script that ends with a status other than 0
    leaves both configuration files as they were. *)
Theorem failed_run_changes_nothing (args : list string) (w : HostScript.world) :
  status (main args w) ≠ 0 →
  user_config_after (main args w) = user_config w ∧
  install_config_after (main args w) = install_config w.
Proof.
  unfold main, save_user_config.
  destruct (parse_args defaults args) as [o|code]; [|done].
  destruct (MODE o); try done.
  - destruct (USE_USER_CONFIG o).
    + by destruct (is_file (user_config w)).
    + destruct (install_dir_found w); [|done].
      by destruct (is_file (install_config w)).
  - destruct (test_z (detected_tailscale_ip w)); [done|].
    by destruct (set_config _ _).
  - destruct (test_z (HOST_IP o)); [done|].
    by destruct (set_config _ _).
Qed.

Lemma failed_run_changes_nothing_witness :
  user_config_after
    (main ["--tailscale"; "100.64.0.1"]
          (HostScript.World (Regular "10.0.0.7") false NoFile "100.64.0.9" None))
  = Regular "10.0.0.7".
Proof.
  refine (proj1 (failed_run_changes_nothing
                   ["--tailscale"; "100.64.0.1"]
                   (HostScript.World (Regular "10.0.0.7") false NoFile
                                     "100.64.0.9" None) _)).
  vm_compute. discriminate.
Defined.
End host_script.

Section host_script_modes.
Import RunHost HostScript.

(** The loop treats [--install-dir] independently of everything else:
    it only clears USE_USER_CONFIG. *)
Lemma parse_args_user_config m h u args :
  parse_args (Settings m h u) args =
  match parse_args (Settings m h true) args with
  | Run o => Run (Settings (MODE o) (HOST_IP o) (u && USE_USER_CONFIG o))
  | Exit code => Exit code
  end.
Proof.
  revert m h u. induction args as [|a args IH]; intros m h u.
  - simpl. by rewrite andb_true_r.
  - cbn [parse_args MODE HOST_IP USE_USER_CONFIG].
    repeat (case_bool_decide; [first [done | apply IH]|]).
    case_bool_decide.
    { rewrite (IH m h false).
      destruct (parse_args (Settings m h true) args); [|done].
      simpl. by rewrite andb_false_r. }
    destruct (test_z h && is_set m); [apply IH|done].
Qed.

Lemma parse_install_dir o args :
  parse_args o ("--install-dir" :: args)
  = parse_args (Settings (MODE o) (HOST_IP o) false) args.
Proof.
  cbn [parse_args].
  repeat (case_bool_decide as Hin;
          [apply list_elem_of_In in Hin; simpl in Hin;
           by destruct Hin as [Hin|[Hin|[]]]|clear Hin]).
  by rewrite bool_decide_eq_true_2.
Qed.

(** X9: the install-directory configuration file is never written: a
    run leaves it as it was, or removes it, and removes it only in
    reset mode with [--install-dir] given.  In every other mode
    [--install-dir] changes nothing: putting it before the arguments
    yields the same run. *)
Theorem install_dir_flag_only_for_reset (args : list string) (w : HostScript.world) :
  (install_config_after (main args w) = install_config w ∨
   install_config_after (main args w) = NoFile ∧
   ∃ o, parse_args defaults args = Run o ∧
        MODE o = reset ∧ USE_USER_CONFIG o = false) ∧
  (match parse_args defaults args with
   | Run o => if MODE o is reset then True
              else main ("--install-dir" :: args) w = main args w
   | Exit _ => main ("--install-dir" :: args) w = main args w
   end).
Proof.
  split.
  - unfold main, save_user_config.
    destruct (parse_args defaults args) as [o|code] eqn:Hparse; [|by left].
    destruct (MODE o) eqn:Hm; try by left.
    + destruct (USE_USER_CONFIG o) eqn:Hu.
      * destruct (is_file (user_config w)); by left.
      * destruct (install_dir_found w); [|by left].
        destruct (is_file (install_config w)); [|by left].
        right. split; [done|]. by exists o.
    + destruct (test_z (detected_tailscale_ip w)); [by left|].
      destruct (set_config _ _); by left.
    + destruct (test_z (HOST_IP o)); [by left|].
      destruct (set_config _ _); by left.
  - unfold main. rewrite parse_install_dir.
    cbn [defaults MODE HOST_IP USE_USER_CONFIG].
    rewrite (parse_args_user_config set "" false).
    change (Settings set "" true) with defaults.
    destruct (parse_args defaults args) as [o|code]; [|done].
    cbn [MODE HOST_IP USE_USER_CONFIG andb].
    by destruct (MODE o).
Qed.

Lemma help_always_exits o args :
  "-h" ∈ args ∨ "--help" ∈ args →
  parse_args o args = Exit 0 ∨ parse_args o args = Exit 1.
Proof.
  revert o. induction args as [|a args IH]; intros o Hin.
  - destruct Hin as [Hin|Hin]; by apply elem_of_nil in Hin.
  - cbn [parse_args].
    case_bool_decide as Hhelp; [by left|].
    assert (Hrest : "-h" ∈ args ∨ "--help" ∈ args).
    { destruct Hin as [[<-|Hin]%elem_of_cons|[<-|Hin]%elem_of_cons]; auto;
        exfalso; apply Hhelp; in_list. }
    repeat (case_bool_decide; [by apply IH|]).
    destruct (test_z (HOST_IP o) && is_set (MODE o)); [by apply IH|by right].
Qed.

(** X10: when [-h] or [--help] is among the arguments, the script
    changes neither configuration file and ends with status 0, or
    with status 1 if an argument before it is rejected. *)
Theorem help_changes_nothing (args : list string) (w : HostScript.world) :
  "-h" ∈ args ∨ "--help" ∈ args →
  main args w = unchanged 0 w ∨ main args w = unchanged 1 w.
Proof.
  intros Hin. unfold main.
  destruct (help_always_exits defaults args Hin) as [-> | ->]; auto.
Qed.

Lemma help_changes_nothing_witness :
  main ["--local"; "--help"]
       (HostScript.World (Regular "10.0.0.7") false NoFile "" None)
  = unchanged 0 (HostScript.World (Regular "10.0.0.7") false NoFile "" None)
  ∨
  main ["--local"; "--help"]
       (HostScript.World (Regular "10.0.0.7") false NoFile "" None)
  = unchanged 1 (HostScript.World (Regular "10.0.0.7") false NoFile "" None).
Proof.
  apply help_changes_nothing. right. in_list.
Defined.

(** X11: [--reset] always ends with status 0 and without a user
    configuration file, leaves the install-directory file alone, and
    running it again changes nothing more; a wrapper started
    afterwards without MCP_CHROME_HOST and without a file in its own
    directory exports the default 0.0.0.0. *)
Theorem reset_restores_default (w : HostScript.world) :
  status (main ["--reset"] w) = 0 ∧
  user_config_after (main ["--reset"] w) = NoFile ∧
  install_config_after (main ["--reset"] w) = install_config w ∧
  main ["--reset"] (after (main ["--reset"] w) w) = main ["--reset"] w ∧
  wrapper_after (user_config_after (main ["--reset"] w)) = "0.0.0.0".
Proof.
  destruct w as [u found i ip reply].
  change (main ["--reset"] (HostScript.World u found i ip reply))
    with (if is_file u then Result 0 NoFile i else Result 0 u i).
  destruct u; simpl; done.
Qed.

(** X12: through the command line, with none of --info, --reset and
    --tailscale given: [--local] makes the next wrapper export
    127.0.0.1, otherwise [--global] makes it export 0.0.0.0, and
    otherwise a host that passes the address check is exported as it
    is; the flags win over a host given with them, and the script ends
    with status 0. *)
Theorem cli_configure_host_end_to_end
    (host : option string) (options : Cli.configure_options)
    (args : list string) (w : HostScript.world) :
  Cli.configure_host_args host options = Some args →
  Cli.opt_info options = false →
  Cli.opt_reset options = false →
  Cli.opt_tailscale options = false →
  (Cli.opt_local options = true ∨ Cli.opt_global options = true ∨
   ∃ h, host = Some h ∧ ip_pattern h = true) →
  status (main args w) = 0 ∧
  wrapper_after (user_config_after (main args w))
  = if Cli.opt_local options then "127.0.0.1"
    else if Cli.opt_global options then "0.0.0.0"
    else default "" host.
Proof.
  unfold Cli.configure_host_args. intros Hargs Hi Hr Ht Hwhat.
  rewrite Hi, Hr, Ht in Hargs.
  destruct (Cli.opt_local options) eqn:Hl.
  { injection Hargs as <-. split; by vm_compute. }
  destruct (Cli.opt_global options) eqn:Hg.
  { injection Hargs as <-. split; by vm_compute. }
  destruct Hwhat as [?|[?|(h & -> & Hp)]]; try discriminate.
  destruct (ip_pattern_bytes h Hp) as (_ & _ & d & rest & Hh & _).
  rewrite Hh in Hargs. simpl in Hargs. injection Hargs as <-.
  rewrite <- Hh. simpl.
  rewrite (main_validated h w Hp). split; [done|].
  cbn [user_config_after].
  destruct (ip_pattern_clean h Hp) as (Hne & Hclean & Hlen).
  by apply wrapper_after_clean.
Qed.
End host_script_modes.

Section option_like_host.
Import RunHost HostScript.

(** X13: a host that [echo] takes for options (a dash followed only by
    the letters n, e, E) and that the user confirms is reported as
    saved with status 0, but the file receives no host: a wrapper
    started afterwards without MCP_CHROME_HOST and without a file in
    its own directory exports the default 0.0.0.0. *)
Theorem option_like_host_is_lost
    (host letters reply : string) (w : HostScript.world) :
  echo_options host = Some letters →
  confirm w = Some reply →
  yes_pattern reply = true →
  status (main [host] w) = 0 ∧
  wrapper_after (user_config_after (main [host] w)) = "0.0.0.0".
Proof.
  intros Hopt Hreply Hyes.
  destruct host as [|c0 [|c rest]]; try discriminate Hopt.
  { destruct c0 as [[] [] [] [] [] [] [] []]; discriminate Hopt. }
  assert (Hc0 : c0 = "-"%char).
  { destruct c0 as [[] [] [] [] [] [] [] []]; try discriminate Hopt.
    reflexivity. }
  subst c0. cbn [echo_options] in Hopt.
  destruct (all_in _ (String c rest)) eqn:Hall; [|discriminate Hopt].
  injection Hopt as <-.
  assert (Hflag : String "-" (String c rest) ∉ flags).
  { intros Hin. apply list_elem_of_In in Hin. simpl in Hin.
    repeat (destruct Hin as [Hin|Hin];
            [injection Hin as <- <-; by vm_compute in Hall|]).
    done. }
  unfold main. rewrite (parse_plain_word _ _ _ Hflag).
  cbn [defaults HOST_IP MODE USE_USER_CONFIG test_z is_set andb parse_args].
  unfold save_user_config, set_config. cbn [test_z]. rewrite Hreply, Hyes.
  assert (Hneed : needs_confirmation (String "-" (String c rest)) = true)
    by reflexivity.
  rewrite Hneed. unfold bash_echo. cbn [echo_options]. rewrite Hall.
  destruct (has "n" (String c rest)); split; reflexivity.
Qed.

Lemma option_like_host_is_lost_witness :
  wrapper_after
    (user_config_after
       (main ["-n"] (HostScript.World NoFile false NoFile "" (Some "y"))))
  = "0.0.0.0".
Proof.
  exact (proj2 (option_like_host_is_lost "-n" "n" "y"
                  (HostScript.World NoFile false NoFile "" (Some "y"))
                  eq_refl eq_refl eq_refl)).
Defined.

Lemma cli_configure_host_end_to_end_witness :
  wrapper_after
    (user_config_after
       (main ["100.64.0.1"]
             (HostScript.World NoFile false NoFile "" None)))
  = "100.64.0.1".
Proof.
  refine (proj2 (cli_configure_host_end_to_end
                   (Some "100.64.0.1")
                   (Cli.Options false false false false false)
                   ["100.64.0.1"]
                   (HostScript.World NoFile false NoFile "" None)
                   eq_refl eq_refl eq_refl eq_refl _)).
  right. right. exists "100.64.0.1". split; reflexivity.
Defined.
End option_like_host.

(** ** The update-port command *)

Section update_port.
Import Cli.
Local Open Scope list_scope.

Lemma all_from_spec f count n :
  all_from f count n = true →
  ∀ k, n ≤ k < n + Z.of_nat count → f k = true.
Proof.
  revert n. induction count as [|count IH]; intros n H k Hk; [lia|].
  cbn [all_from] in H. apply andb_true_iff in H as [Hn H].
  destruct (decide (k = n)) as [->|Hne]; [done|].
  apply (IH (n + 1) H). lia.
Qed.

Lemma decimal_texts_ok : all_from decimal_text_ok (Z.to_nat 65535) 1 = true.
Proof. vm_compute. reflexivity. Qed.

Lemma digit_not_white_space c : is_digit c = true → is_white_space c = false.
Proof.
  unfold is_digit, is_white_space.
  intros [H1 H2]%andb_true_iff. apply N.leb_le in H1, H2.
  apply orb_false_iff. split.
  - apply bool_decide_eq_false_2. intros Hin.
    apply list_elem_of_In in Hin. simpl in Hin. lia.
  - apply andb_false_iff. left. apply N.leb_gt. lia.
Qed.

Lemma take_while_digits ds rest :
  forallb is_digit ds = true →
  (∀ c, head rest = Some c → is_digit c = false) →
  take_while is_digit (ds ++ rest) = ds.
Proof.
  intros Hds Hrest. induction ds as [|d ds IH]; simpl in *.
  - destruct rest as [|c rest]; [done|]. simpl.
    by rewrite (Hrest c eq_refl).
  - apply andb_true_iff in Hds as [-> Hds]. by rewrite IH.
Qed.

Lemma decimal_value_nonneg ds acc :
  0 ≤ acc → forallb is_digit ds = true →
  0 ≤ fold_left (λ a d, 10 * a + (Z.of_N d - 48)) ds acc.
Proof.
  revert acc. induction ds as [|d ds IH]; intros acc Hacc Hds; simpl in *;
    [done|].
  apply andb_true_iff in Hds as [Hd Hds]. apply IH; [|done].
  unfold is_digit in Hd. apply andb_true_iff in Hd as [H1 H2].
  apply N.leb_le in H1, H2. lia.
Qed.

Lemma take_while_all_digits l : forallb is_digit (take_while is_digit l) = true.
Proof.
  induction l as [|c l IH]; simpl; [done|].
  destruct (is_digit c) eqn:Hc; simpl; [by rewrite Hc|done].
Qed.

(** X14: for every port from 1 to 65535, [update-port] accepts its
    decimal text as that port, also when the text is followed by
    anything that does not start with a digit: trailing text is
    ignored without complaint. *)
Theorem update_port_accepts_decimal (p : Z) (rest : js_string) :
  1 ≤ p ≤ 65535 →
  (∀ c, head rest = Some c → is_digit c = false) →
  update_port_number (decimal_text p ++ rest) = Some p.
Proof.
  intros Hp Hrest.
  assert (Hok : decimal_text_ok p = true).
  { apply (all_from_spec _ _ _ decimal_texts_ok). lia. }
  unfold decimal_text_ok in Hok.
  destruct (decimal_text p) as [|d ds] eqn:Htext; [done|].
  apply andb_true_iff in Hok as [Hdigits Hvalue]. apply Z.eqb_eq in Hvalue.
  pose proof Hdigits as Hd. cbn [forallb] in Hd.
  apply andb_true_iff in Hd as [Hd _].
  unfold update_port_number, parseInt10.
  change ((d :: ds) ++ rest) with (d :: (ds ++ rest)).
  cbn [drop_while]. rewrite (digit_not_white_space d Hd).
  assert (Hd' := Hd). unfold is_digit in Hd'.
  apply andb_true_iff in Hd' as [H1 H2]. apply N.leb_le in H1, H2.
  rewrite (proj2 (N.eqb_neq d 45)) by lia.
  rewrite (proj2 (N.eqb_neq d 43)) by lia.
  change (d :: (ds ++ rest)) with ((d :: ds) ++ rest).
  rewrite (take_while_digits (d :: ds) rest Hdigits Hrest).
  rewrite Hvalue, Z.mul_1_l.
  rewrite (proj2 (Z.ltb_ge p 1)) by lia.
  assert (Hgt : (p >? 65535) = false) by (rewrite Z.gtb_ltb; apply Z.ltb_ge; lia).
  by rewrite Hgt.
Qed.

Lemma update_port_accepts_decimal_witness :
  update_port_number (decimal_text 12306 ++ [47; 109; 99; 112]%N) = Some 12306.
Proof.
  apply update_port_accepts_decimal; [lia|].
  intros c [= <-]. reflexivity.
Defined.

(** X15: whatever [update-port] accepts is a port from 1 to 65535, and
    it never accepts a text whose first character after leading white
    space is a minus sign. *)
Theorem update_port_range (port : js_string) (p : Z) :
  update_port_number port = Some p →
  1 ≤ p ≤ 65535 ∧ head (drop_while is_white_space port) ≠ Some 45%N.
Proof.
  unfold update_port_number, parseInt10.
  destruct (drop_while is_white_space port) as [|c body] eqn:Htrim.
  { simpl. intros [=]. }
  cbn [head]. destruct (c =? 45)%N eqn:Hminus.
  - pose proof (take_while_all_digits body) as Hdig.
    destruct (take_while is_digit body) as [|d ds] eqn:Hds; [intros [=]|].
    pose proof (decimal_value_nonneg (d :: ds) 0 (Z.le_refl 0) Hdig) as Hpos.
    fold (decimal_value (d :: ds)) in Hpos.
    assert (Hlt : (-1 * decimal_value (d :: ds) <? 1) = true)
      by (apply Z.ltb_lt; lia).
    rewrite Hlt. simpl. intros [=].
  - apply N.eqb_neq in Hminus.
    assert (Hne : Some c ≠ Some 45%N) by congruence.
    destruct (c =? 43)%N;
      match goal with
      | |- context [take_while is_digit ?l] =>
          destruct (take_while is_digit l) as [|d ds]; [intros [=]|]
      end;
      match goal with
      | |- context [?a <? 1] =>
          destruct (a <? 1) eqn:Hlo; [intros [=]|];
          destruct (a >? 65535) eqn:Hhi; [intros [=]|];
          simpl; intros [= <-];
          apply Z.ltb_ge in Hlo; rewrite Z.gtb_ltb in Hhi;
          apply Z.ltb_ge in Hhi; (split; [lia|exact Hne])
      end.
Qed.

Lemma update_port_range_witness :
  update_port_number [32; 43; 56; 48; 56; 48]%N = Some 8080 ∧
  1 ≤ 8080 ≤ 65535.
Proof.
  split; [reflexivity|].
  exact (proj1 (update_port_range [32; 43; 56; 48; 56; 48]%N 8080 eq_refl)).
Defined.
End update_port.

(** ** Discovery of the Node.js executable *)

Section node_discovery.
Import RunHost NodeDiscovery NodeFacts.

Lemma first_executable_cases x candidates current :
  first_executable x candidates current = current ∨
  (first_executable x candidates current ∈ candidates ∧
   x (first_executable x candidates current) = true).
Proof.
  induction candidates as [|c rest IH]; simpl; [by left|].
  destruct (x c) eqn:Hc.
  - right. split; [apply list_elem_of_here|done].
  - destruct IH as [IH|[IH1 IH2]]; [by left|].
    right. split; [by apply list_elem_of_further|done].
Qed.

Lemma append_not_empty a b : b ≠ "" → a +:+ b ≠ "".
Proof.
  intros Hb. destruct a as [|c a]; [done|].
  change (String c (a +:+ b) ≠ ""). done.
Qed.

Lemma test_z_false s : s ≠ "" → test_z s = false.
Proof. by destruct s. Qed.

Lemma priority_1_acceptable w : acceptable w (priority_1 w).
Proof.
  unfold acceptable, priority_1.
  destruct (is_file (NODE_PATH_FILE w)); [|by left].
  destruct (test_z _); simpl; [by left|].
  destruct (executable w _) eqn:Hx; [right; by left|by left].
Qed.

Lemma priority_1_5_acceptable w p :
  acceptable w p → acceptable w (priority_1_5 w p).
Proof.
  unfold acceptable, priority_1_5. intros Hp.
  destruct (test_z p); [|done].
  match goal with
  | |- context [if executable w ?e then _ else _] =>
      destruct (executable w e) eqn:Hx; [right; by left|done]
  end.
Qed.

Lemma priority_2_acceptable w p :
  acceptable w p → acceptable w (priority_2 w p).
Proof.
  unfold acceptable, priority_2. intros Hp.
  destruct (test_z p) eqn:Hz; [|done].
  destruct (nvm_is_dir w); [|done].
  assert (Hlatest :
    p = "" ∨ executable w p = true ∨ command_v_node w = Some p →
    let r := if negb (test_z (nvm_latest w))
                && executable w (nvm_latest w +:+ "/bin/node")
             then nvm_latest w +:+ "/bin/node" else p in
    r = "" ∨ executable w r = true ∨ command_v_node w = Some r).
  { intros Hp'. simpl.
    match goal with
    | |- context [if ?b then _ else _] => destruct b eqn:Hl; [|done]
    end.
    apply andb_true_iff in Hl as [_ Hl]. right. by left. }
  destruct (nvm_default_link w) as [v|].
  - match goal with
    | |- context [if executable w ?e then _ else _] =>
        destruct (executable w e) eqn:Hx;
        [rewrite (test_z_false e) by (repeat apply append_not_empty; done);
         right; by left|]
    end.
    rewrite Hz. by apply Hlatest.
  - rewrite Hz. by apply Hlatest.
Qed.

Lemma first_executable_acceptable w candidates p :
  acceptable w p →
  acceptable w (first_executable (executable w) candidates p).
Proof.
  intros Hp.
  destruct (first_executable_cases (executable w) candidates p)
    as [->|[_ Hx]]; [done|].
  right. by left.
Qed.

Lemma priority_3_acceptable w p :
  acceptable w p → acceptable w (priority_3 w p).
Proof.
  unfold priority_3. intros Hp.
  destruct (test_z p); [|done]. by apply first_executable_acceptable.
Qed.

Lemma priority_4_acceptable w p :
  acceptable w p → acceptable w (priority_4 w p).
Proof.
  unfold priority_4. intros Hp.
  destruct (test_z p); [|done].
  destruct (command_v_node w) as [out|] eqn:Hv; [|done].
  right. right. done.
Qed.

Lemma priority_5_acceptable w p :
  acceptable w p → acceptable w (priority_5 w p).
Proof.
  unfold priority_5. intros Hp.
  destruct (test_z p); [|done]. by apply first_executable_acceptable.
Qed.

(** X16: the program the wrapper hands to [exec] is never the empty
    word, and it either passed the [[ -x ]] test or is what
    [command -v node] printed. *)
Theorem found_node_is_executable (w : world) (p : string) :
  find_node w = Some p →
  p ≠ "" ∧ (executable w p = true ∨ command_v_node w = Some p).
Proof.
  unfold find_node.
  assert (Hacc : acceptable w (NODE_EXEC w)).
  { unfold NODE_EXEC.
    apply priority_5_acceptable, priority_4_acceptable,
      priority_3_acceptable, priority_2_acceptable,
      priority_1_5_acceptable, priority_1_acceptable. }
  destruct (NODE_EXEC w) as [|c s] eqn:Hn; cbn [test_z]; [done|].
  intros [= <-]. split; [done|].
  destruct Hacc as [Hacc|Hacc]; [done|exact Hacc].
Qed.

Lemma found_node_is_executable_witness :
  executable sample_node_world "/usr/bin/node" = true ∨
  command_v_node sample_node_world = Some "/usr/bin/node".
Proof.
  exact (proj2 (found_node_is_executable
                  sample_node_world "/usr/bin/node" eq_refl)).
Defined.

Lemma later_priorities_keep w p :
  p ≠ "" →
  priority_5 w (priority_4 w (priority_3 w (priority_2 w
    (priority_1_5 w p)))) = p.
Proof.
  intros Hp. destruct p as [|c s]; [done|]. reflexivity.
Qed.

(** X17: the path that [writeNodePath] stored in node_path.txt is the
    program the wrapper runs, whatever NVM, the common paths and PATH
    offer, provided the path is not empty, holds no newline, carriage
    return or NUL byte, and passes [[ -x ]]; spaces in it are kept. *)
Theorem installed_node_round_trip (w : world) (execPath : string) :
  NODE_PATH_FILE w = Cli.writeNodePath execPath →
  execPath ≠ "" →
  (∀ c, c ∈ list_ascii_of_string execPath → c ∉ [LF; CR; NUL]) →
  executable w execPath = true →
  find_node w = Some execPath.
Proof.
  intros Hfile Hne Hclean Hx.
  assert (Hread : installed_node (NODE_PATH_FILE w) = execPath).
  { rewrite Hfile. unfold installed_node, Cli.writeNodePath, command_subst.
    cbn [cat_quiet].
    rewrite (tr_d_id [LF; CR]), (tr_d_id [NUL]).
    - apply strip_trailing_newlines_id. intros Hin.
      apply (Hclean _ Hin). in_list.
    - intros c Hc Hin. apply list_elem_of_singleton in Hc as ->.
      apply (Hclean _ Hin). in_list.
    - intros c Hc Hin. apply (Hclean _ Hin).
      apply list_elem_of_In in Hc. simpl in Hc.
      destruct Hc as [<-|[<-|[]]]; in_list. }
  assert (H1 : priority_1 w = execPath).
  { unfold priority_1. rewrite Hread, Hfile. cbn [Cli.writeNodePath is_file].
    rewrite Hx. by destruct execPath. }
  unfold find_node, NODE_EXEC. rewrite H1, later_priorities_keep by done.
  by destruct execPath.
Qed.

Lemma installed_node_round_trip_witness :
  find_node
    (World "/opt/bridge/dist" "/home/u"
           (Cli.writeNodePath "/Users/me/my tools/node")
           (λ _, true) true (Some "v18.0.0") "/home/u/.nvm/versions/node/v20"
           (Some "/usr/bin/node") ["/usr/bin"])
  = Some "/Users/me/my tools/node".
Proof.
  apply installed_node_round_trip; try done.
  simpl. intros c Hc Hbad.
  apply list_elem_of_In in Hc. apply list_elem_of_In in Hbad.
  simpl in Hc, Hbad.
  repeat (destruct Hc as [<-|Hc]; [by repeat destruct Hbad as [Hbad|Hbad]|]).
  done.
Defined.
End node_discovery.
